(** * personal_assistant.py: address book, validated fields and the
      upcoming-birthdays query

    A shallow embedding of the core of [src/personal_assistant.py]
    (classes [Field], [Name], [Phone], [Birthday], [Record] and
    [AddressBook]) together with the parts of Python's runtime that the
    core relies on: exceptions, object identity, [str.isdigit],
    [datetime.strptime] for the format ["%d.%m.%Y"], and the proleptic
    Gregorian calendar of the [datetime] module. On top of the core come
    the command handlers with their decorator [input_error],
    [parse_input] and the loop of [main]; reading the input, the clock and
    the pickled file are outside the model, the lines typed and the clock
    readings being inputs of the loop.

    Conventions.
    - Text is a Rocq [string]; each character stands for the Unicode code
      point of the same number, so the model covers Python strings whose
      code points lie in U+0000..U+00FF.
    - A Python call that may raise returns a [result]; the message of an
      exception is dropped, its class is kept.
    - [Phone] objects carry an identity, because [list.remove] compares
      them with the default [==] of [object], which is identity. *)

From Stdlib Require Import String Ascii List ZArith Lia Bool.
Import ListNotations.

Local Open Scope string_scope.
Local Open Scope list_scope.
Local Open Scope Z_scope.

(* ===================================================================== *)
(** ** Exceptions and results *)

(** The exception classes that the modelled code can raise. *)
Inductive exn : Type :=
| ValueError
| AttributeError
| IndexError
| OverflowError.

Inductive result (A : Type) : Type :=
| Ok (a : A)
| Raise (e : exn).

Arguments Ok {A} a.
Arguments Raise {A} e.

Definition rbind {A B : Type} (c : result A) (k : A -> result B) : result B :=
  match c with
  | Ok a => k a
  | Raise e => Raise e
  end.

Declare Scope py_scope.
Delimit Scope py_scope with py.
Notation "x <- c ;; k" := (rbind c (fun x => k))
  (at level 61, c at next level, right associativity) : py_scope.
Local Open Scope py_scope.

(** [try: body  except ValueError: handler] *)
Definition try_except_ValueError {A : Type} (body handler : result A) : result A :=
  match body with
  | Raise ValueError => handler
  | other => other
  end.

(** Reading an attribute of an object: [None] is an attribute that was
    never assigned, and reading it raises [AttributeError]. *)
Definition getattr {A : Type} (slot : option A) : result A :=
  match slot with
  | Some a => Ok a
  | None => Raise AttributeError
  end.

Definition is_ok {A : Type} (c : result A) : bool :=
  match c with
  | Ok _ => true
  | Raise _ => false
  end.

(* ===================================================================== *)
(** ** Object identity *)

(** The heap is abstracted to the next unused object identity: every live
    object that carries one has an identity below it. *)
Definition heap : Type := nat.

(** Computations that allocate: state passing over the heap, with
    exceptions. *)
Definition M (A : Type) : Type := heap -> result (A * heap).

Definition ret {A : Type} (a : A) : M A := fun h => Ok (a, h).

Definition mbind {A B : Type} (c : M A) (k : A -> M B) : M B :=
  fun h =>
    match c h with
    | Ok (a, h') => k a h'
    | Raise e => Raise e
    end.

Notation "x <~ c ;; k" := (mbind c (fun x => k))
  (at level 61, c at next level, right associativity) : py_scope.

(** [object.__new__]: a fresh identity. *)
Definition new_object : M nat := fun h => Ok (h, S h).

(* ===================================================================== *)
(** ** Text *)

Definition ord (c : ascii) : Z := Z.of_nat (nat_of_ascii c).

Definition between (lo hi : Z) (c : ascii) : bool :=
  (lo <=? ord c) && (ord c <=? hi).

(** The ASCII decimal digits ['0'..'9']; in U+0000..U+00FF these are also
    exactly the characters of category Nd, which [\d] of [re] matches and
    [int] converts. *)
Definition is_ascii_digit (c : ascii) : bool := between 48 57 c.

(** [str.isdigit] on one character: the decimal digits and the characters
    of numeric type Digit; below U+0100 the latter are SUPERSCRIPT TWO
    (U+00B2), SUPERSCRIPT THREE (U+00B3) and SUPERSCRIPT ONE (U+00B9). *)
Definition char_isdigit (c : ascii) : bool :=
  is_ascii_digit c || (ord c =? 178) || (ord c =? 179) || (ord c =? 185).

Fixpoint string_forallb (p : ascii -> bool) (s : string) : bool :=
  match s with
  | EmptyString => true
  | String c s' => p c && string_forallb p s'
  end.

(** [s.isdigit()]: at least one character, and all of them digits. *)
Definition str_isdigit (s : string) : bool :=
  match s with
  | EmptyString => false
  | _ => string_forallb char_isdigit s
  end.

(** [len(s)] *)
Definition len (s : string) : Z := Z.of_nat (String.length s).

(** [int(s)] on the forms that a matched group of the format regex
    takes: decimal digits, after blanks that [int] strips. Any other
    text is refused here. *)
Fixpoint int_digits (acc : Z) (s : string) : result Z :=
  match s with
  | EmptyString => Ok acc
  | String c s' =>
      if is_ascii_digit c then int_digits (10 * acc + (ord c - 48)) s'
      else Raise ValueError
  end.

Fixpoint lstrip (s : string) : string :=
  match s with
  | String c s' => if Ascii.eqb c " " then lstrip s' else s
  | EmptyString => s
  end.

Definition int (s : string) : result Z :=
  match lstrip s with
  | EmptyString => Raise ValueError
  | digits => int_digits 0 digits
  end.

(* ===================================================================== *)
(** ** A backtracking matcher for the format regex *)

(** The fragment of [re] that [_strptime] builds for ["%d.%m.%Y"]:
    single-character classes, concatenation and ordered alternatives. *)
Inductive regex : Type :=
| Chr (p : ascii -> bool)
| Cat (r1 r2 : regex)
| Alt (r1 r2 : regex).

(** All the ways [r] matches a prefix of [s], as (matched text, rest), in
    the order a backtracking engine tries them: the left alternative
    first. *)
Fixpoint re_match (r : regex) (s : string) : list (string * string) :=
  match r with
  | Chr p =>
      match s with
      | String c s' => if p c then [(String c EmptyString, s')] else []
      | EmptyString => []
      end
  | Cat r1 r2 =>
      flat_map
        (fun m1 =>
           map (fun m2 => ((fst m1 ++ fst m2)%string, snd m2)) (re_match r2 (snd m1)))
        (re_match r1 s)
  | Alt r1 r2 => re_match r1 s ++ re_match r2 s
  end.

Definition lit (c : ascii) : regex := Chr (Ascii.eqb c).
Definition range (lo hi : ascii) : regex := Chr (between (ord lo) (ord hi)).
Definition re_digit : regex := Chr is_ascii_digit.

(** ['d': r"(?P<d>3[0-1]|[1-2]\d|0[1-9]|[1-9]| [1-9])"] *)
Definition re_d : regex :=
  Alt (Cat (lit "3") (range "0" "1"))
 (Alt (Cat (range "1" "2") re_digit)
 (Alt (Cat (lit "0") (range "1" "9"))
 (Alt (range "1" "9")
      (Cat (lit " ") (range "1" "9"))))).

(** ['m': r"(?P<m>1[0-2]|0[1-9]|[1-9])"] *)
Definition re_m : regex :=
  Alt (Cat (lit "1") (range "0" "2"))
 (Alt (Cat (lit "0") (range "1" "9"))
      (range "1" "9")).

(** ['Y': r"(?P<Y>\d\d\d\d)"] *)
Definition re_Y : regex :=
  Cat re_digit (Cat re_digit (Cat re_digit re_digit)).

(** The groups of one match of [(?P<d>..)\.(?P<m>..)\.(?P<Y>..)]. *)
Record found : Type := mkFound
  { group_d : string;
    group_m : string;
    group_Y : string;
    unconverted : string }.

(** [format_regex.match(data_string)]: the first match in backtracking
    order, if there is one. *)
Definition format_regex_match (data_string : string) : option found :=
  hd_error
    (flat_map (fun md =>
     flat_map (fun p1 =>
     flat_map (fun mm =>
     flat_map (fun p2 =>
     map (fun mY => mkFound (fst md) (fst mm) (fst mY) (snd mY))
         (re_match re_Y (snd p2)))
       (re_match (lit ".") (snd mm)))
       (re_match re_m (snd p1)))
       (re_match (lit ".") (snd md)))
       (re_match re_d data_string)).

(* ===================================================================== *)
(** ** The [datetime] module: calendar *)

Definition MINYEAR : Z := 1.
Definition MAXYEAR : Z := 9999.
Definition _MAXORDINAL : Z := 3652059.

(** [year % 4 == 0 and (year % 100 != 0 or year % 400 == 0)] *)
Definition _is_leap (year : Z) : bool :=
  (year mod 4 =? 0) && (negb (year mod 100 =? 0) || (year mod 400 =? 0)).

(** [_DAYS_IN_MONTH = [-1, 31, 28, 31, 30, 31, 30, 31, 31, 30, 31, 30, 31]] *)
Definition _DAYS_IN_MONTH : list Z :=
  [-1; 31; 28; 31; 30; 31; 30; 31; 31; 30; 31; 30; 31].

(** [_DAYS_BEFORE_MONTH]: the running sums of [_DAYS_IN_MONTH]. *)
Definition _DAYS_BEFORE_MONTH : list Z :=
  [-1; 0; 31; 59; 90; 120; 151; 181; 212; 243; 273; 304; 334].

Definition index (table : list Z) (i : Z) : Z := nth (Z.to_nat i) table 0.

Definition _days_before_year (year : Z) : Z :=
  let y := year - 1 in
  y * 365 + y / 4 - y / 100 + y / 400.

Definition _days_in_month (year month : Z) : Z :=
  if (month =? 2) && _is_leap year then 29 else index _DAYS_IN_MONTH month.

Definition _days_before_month (year month : Z) : Z :=
  index _DAYS_BEFORE_MONTH month
  + (if (2 <? month) && _is_leap year then 1 else 0).

Definition _ymd2ord (year month day : Z) : Z :=
  _days_before_year year + _days_before_month year month + day.

Definition _DI400Y : Z := _days_before_year 401.
Definition _DI100Y : Z := _days_before_year 101.
Definition _DI4Y : Z := _days_before_year 5.

(** A calendar date, as [datetime.date] holds it. *)
Record date : Type := mkDate
  { year : Z;
    month : Z;
    day : Z }.

(** [_ord2ymd(n)]: the date with ordinal [n], 0001-01-01 being day 1. *)
Definition _ord2ymd (n : Z) : date :=
  let n := n - 1 in
  let n400 := n / _DI400Y in
  let n := n mod _DI400Y in
  let year := n400 * 400 + 1 in
  let n100 := n / _DI100Y in
  let n := n mod _DI100Y in
  let n4 := n / _DI4Y in
  let n := n mod _DI4Y in
  let n1 := n / 365 in
  let n := n mod 365 in
  let year := year + n100 * 100 + n4 * 4 + n1 in
  if (n1 =? 4) || (n100 =? 4) then mkDate (year - 1) 12 31
  else
    let leapyear := (n1 =? 3) && (negb (n4 =? 24) || (n100 =? 3)) in
    let month := Z.shiftr (n + 50) 5 in
    let preceding :=
      index _DAYS_BEFORE_MONTH month
      + (if (2 <? month) && leapyear then 1 else 0) in
    if n <? preceding then
      let month := month - 1 in
      let preceding :=
        preceding
        - (index _DAYS_IN_MONTH month
           + (if (month =? 2) && leapyear then 1 else 0)) in
      mkDate year month (n - preceding + 1)
    else mkDate year month (n - preceding + 1).

(** [_check_date_fields]: the test with which [date(...)] and
    [datetime(...)] refuse a day that the calendar does not have. *)
Definition _check_date_fields (y m d : Z) : bool :=
  (MINYEAR <=? y) && (y <=? MAXYEAR)
  && (1 <=? m) && (m <=? 12)
  && (1 <=? d) && (d <=? _days_in_month y m).

(** [date(year, month, day)] *)
Definition date_new (y m d : Z) : result date :=
  if _check_date_fields y m d then Ok (mkDate y m d) else Raise ValueError.

(** A naive [datetime.datetime]: a date and a time of day. *)
Record datetime : Type := mkDatetime
  { dt_year : Z;
    dt_month : Z;
    dt_day : Z;
    hour : Z;
    minute : Z;
    second : Z;
    microsecond : Z }.

Definition _check_time_fields (h mi s us : Z) : bool :=
  (0 <=? h) && (h <=? 23) && (0 <=? mi) && (mi <=? 59)
  && (0 <=? s) && (s <=? 59) && (0 <=? us) && (us <=? 999999).

(** [datetime(year, month, day, hour, minute, second, microsecond)] *)
Definition datetime_new (y m d h mi s us : Z) : result datetime :=
  if _check_date_fields y m d && _check_time_fields h mi s us
  then Ok (mkDatetime y m d h mi s us)
  else Raise ValueError.

(** The values that [datetime.now()] can return. *)
Definition datetime_valid (t : datetime) : bool :=
  _check_date_fields (dt_year t) (dt_month t) (dt_day t)
  && _check_time_fields (hour t) (minute t) (second t) (microsecond t).

(** [datetime.combine(d, datetime.min.time())]: midnight of [d]. *)
Definition combine_min_time (d : date) : datetime :=
  mkDatetime (year d) (month d) (day d) 0 0 0 0.

(** [t.replace(year=y)]: builds the datetime again, so the fields are
    checked again. *)
Definition replace_year (t : datetime) (y : Z) : result datetime :=
  datetime_new y (dt_month t) (dt_day t)
               (hour t) (minute t) (second t) (microsecond t).

(** [t.toordinal()] *)
Definition toordinal (t : datetime) : Z :=
  _ymd2ord (dt_year t) (dt_month t) (dt_day t).

(** [t + timedelta(days=n)]: the time of day is kept, the date moves by
    [n] days, and a date after 9999-12-31 is an [OverflowError]. *)
Definition add_days (t : datetime) (n : Z) : result datetime :=
  let days := toordinal t + n in
  if (0 <? days) && (days <=? _MAXORDINAL) then
    let d := _ord2ymd days in
    Ok (mkDatetime (year d) (month d) (day d)
                   (hour t) (minute t) (second t) (microsecond t))
  else Raise OverflowError.

(** Datetimes compare as the tuples
    [(year, month, day, hour, minute, second, microsecond)]. *)
Definition fields (t : datetime) : list Z :=
  [dt_year t; dt_month t; dt_day t; hour t; minute t; second t; microsecond t].

Fixpoint _cmp (x y : list Z) : comparison :=
  match x, y with
  | [], [] => Eq
  | [], _ :: _ => Lt
  | _ :: _, [] => Gt
  | a :: x', b :: y' =>
      match a ?= b with
      | Eq => _cmp x' y'
      | c => c
      end
  end.

(** [a <= b] *)
Definition datetime_le (a b : datetime) : bool :=
  match _cmp (fields a) (fields b) with
  | Gt => false
  | _ => true
  end.

(** [a < b] *)
Definition datetime_lt (a b : datetime) : bool :=
  match _cmp (fields a) (fields b) with
  | Lt => true
  | _ => false
  end.

(* ===================================================================== *)
(** ** [datetime.strptime(value, "%d.%m.%Y").date()] *)

(** [_strptime] matches the regex of the format at the start of the
    text, refuses text that goes on after the match, converts the three
    groups with [int] and builds the date, which refuses a day that the
    month does not have. Each refusal is a [ValueError]. *)
Definition strptime_dmY (data_string : string) : result date :=
  match format_regex_match data_string with
  | None => Raise ValueError
  | Some f =>
      if negb (String.eqb (unconverted f) EmptyString) then Raise ValueError
      else
        d <- int (group_d f) ;;
        m <- int (group_m f) ;;
        Y <- int (group_Y f) ;;
        date_new Y m d
  end.

(* ===================================================================== *)
(** ** Lists and dictionaries of Python *)

Definition lift {A : Type} (c : result A) : M A :=
  fun h =>
    match c with
    | Ok a => Ok (a, h)
    | Raise e => Raise e
    end.

(** [l.remove(x)]: deletes the first item that is equal to [x], and
    raises [ValueError] when no item is. *)
Fixpoint list_remove {A : Type} (eq : A -> A -> bool) (l : list A) (x : A)
  : result (list A) :=
  match l with
  | [] => Raise ValueError
  | item :: l' =>
      if eq item x then Ok l'
      else r <- list_remove eq l' x ;; Ok (item :: r)
  end.

(** [l[i]] *)
Definition list_getitem {A : Type} (l : list A) (i : nat) : result A :=
  match nth_error l i with
  | Some a => Ok a
  | None => Raise IndexError
  end.

(** [l[i] = x] *)
Fixpoint list_setitem {A : Type} (l : list A) (i : nat) (x : A)
  : result (list A) :=
  match l, i with
  | [], _ => Raise IndexError
  | _ :: l', O => Ok (x :: l')
  | a :: l', S i' => r <- list_setitem l' i' x ;; Ok (a :: r)
  end.

(** [for x in xs: acc = body(acc, x)], stopping at the first exception. *)
Fixpoint for_each {A B : Type} (body : B -> A -> result B) (xs : list A) (acc : B)
  : result B :=
  match xs with
  | [] => Ok acc
  | x :: xs' => acc' <- body acc x ;; for_each body xs' acc'
  end.

(** A [dict] with text keys: the entries in insertion order, each key
    once. *)
Definition dict (V : Type) : Type := list (string * V).

(** [k in d] *)
Fixpoint dict_contains {V : Type} (d : dict V) (k : string) : bool :=
  match d with
  | [] => false
  | (k', _) :: d' => String.eqb k' k || dict_contains d' k
  end.

(** [d[k]] for a key that is present; [None] stands for [KeyError]. *)
Fixpoint dict_getitem {V : Type} (d : dict V) (k : string) : option V :=
  match d with
  | [] => None
  | (k', v) :: d' => if String.eqb k' k then Some v else dict_getitem d' k
  end.

(** [d[k] = v]: a key that is present keeps its place, a new key goes to
    the end. *)
Fixpoint dict_setitem {V : Type} (d : dict V) (k : string) (v : V) : dict V :=
  match d with
  | [] => [(k, v)]
  | (k', v') :: d' =>
      if String.eqb k' k then (k', v) :: d'
      else (k', v') :: dict_setitem d' k v
  end.

(** [del d[k]] for a key that is present. *)
Fixpoint dict_delitem {V : Type} (d : dict V) (k : string) : dict V :=
  match d with
  | [] => []
  | (k', v') :: d' =>
      if String.eqb k' k then d' else (k', v') :: dict_delitem d' k
  end.

(** [d.values()] *)
Definition dict_values {V : Type} (d : dict V) : list V := map snd d.

(* ===================================================================== *)
(** ** The fields *)

Module Field.

(** [Field.__str__]: [str(self.value)], for an object whose [value]
    attribute may be missing. *)
Definition __str__ (value : option string) : result string :=
  getattr value.

End Field.

Module Name.

Record t : Type := mk { value : string }.

(** [if not value: raise ValueError("Name cannot be empty")] *)
Definition __init__ (value : string) : result t :=
  if String.eqb value EmptyString then Raise ValueError
  else Ok (mk value).

Definition __str__ (self : t) : result string :=
  Field.__str__ (Some (value self)).

End Name.

Module Phone.

(** [value] is what the property [value] returns, the private
    [__value]; [id] is the identity of the object. *)
Record t : Type := mk { id : nat; value : string }.

(** The setter of the property [value]. *)
Definition value_setter (value : string) : result string :=
  if (len value =? 10) && str_isdigit value then Ok value
  else Raise ValueError.

(** [super().__init__(value)] assigns [self.value] and so runs the
    setter; then [self.__value = None] and [self.value = value] run it
    again. *)
Definition __init__ (value : string) : M t :=
  self <~ new_object ;;
  first <~ lift (value_setter value) ;;
  stored <~ lift (value_setter value) ;;
  ret (mk self stored).

(** No class of the hierarchy defines [__eq__]: [a == b] is that of
    [object], identity. *)
Definition __eq__ (a b : t) : bool := Nat.eqb (id a) (id b).

Definition __str__ (self : t) : result string :=
  Field.__str__ (Some (value self)).

End Phone.

Module Birthday.

(** The attributes [date] and [value]; [None] is an attribute that
    [__init__] did not assign. *)
Record t : Type := mk { date : option date; value : option string }.

(** [try: self.date = strptime(value, "%d.%m.%Y").date();
         super().__init__(value)
    except ValueError: pass] *)
Definition __init__ (value : string) : result t :=
  try_except_ValueError
    (d <- strptime_dmY value ;;
     Ok (mk (Some d) (Some value)))
    (Ok (mk None None)).

Definition __str__ (self : t) : result string :=
  Field.__str__ (value self).

End Birthday.

(* ===================================================================== *)
(** ** class Record *)

(** The class [Record] of the source; the word is reserved in Rocq. *)
Module ContactRecord.

Record t : Type := mk
  { name : Name.t;
    phones : list Phone.t;
    birthday : option Birthday.t }.

Definition __init__ (name : string) : result t :=
  n <- Name.__init__ name ;;
  Ok (mk n [] None).

(** [self.phones.append(Phone(phone))] *)
Definition add_phone (self : t) (phone : string) : M t :=
  p <~ Phone.__init__ phone ;;
  ret (mk (name self) (phones self ++ [p]) (birthday self)).

(** [self.phones.remove(Phone(phone))] *)
Definition delete_phone (self : t) (phone : string) : M t :=
  x <~ Phone.__init__ phone ;;
  l <~ lift (list_remove Phone.__eq__ (phones self) x) ;;
  ret (mk (name self) l (birthday self)).

(** The body of the loop of [edit_phone] at one index, up to the
    [break]. *)
Definition edit_phone_at (self : t) (old_phone new_phone : string) (index : nat)
  : M t :=
  p <~ lift (list_getitem (phones self) index) ;;
  if String.eqb (Phone.value p) old_phone then
    q <~ Phone.__init__ new_phone ;;
    l <~ lift (list_setitem (phones self) index q) ;;
    ret (mk (name self) l (birthday self))
  else ret self.

(** [for index in range(len(self.phones)): ...; break]: the [break] is
    outside the [if], so the loop ends after its first index. *)
Definition edit_phone (self : t) (old_phone new_phone : string) : M t :=
  match seq 0 (length (phones self)) with
  | [] => ret self
  | index :: _ => edit_phone_at self old_phone new_phone index
  end.

Fixpoint find_in (ps : list Phone.t) (phone : string) : option string :=
  match ps with
  | [] => None
  | p :: ps' =>
      if String.eqb (Phone.value p) phone then Some (Phone.value p)
      else find_in ps' phone
  end.

Definition find_phone (self : t) (phone : string) : option string :=
  find_in (phones self) phone.

(** [self.birthday = Birthday(birthday)] *)
Definition add_birthday (self : t) (birthday : string) : result t :=
  b <- Birthday.__init__ birthday ;;
  Ok (mk (name self) (phones self) (Some b)).

End ContactRecord.

(* ===================================================================== *)
(** ** class AddressBook *)

Module AddressBook.

(** [self.data] of the [UserDict]. *)
Definition t : Type := dict ContactRecord.t.

Definition empty : t := [].

(** [self.data[record.name.value] = record] *)
Definition add_record (self : t) (record : ContactRecord.t) : t :=
  dict_setitem self (Name.value (ContactRecord.name record)) record.

(** [if name in self.data: del self.data[name]] *)
Definition delete (self : t) (name : string) : t :=
  if dict_contains self name then dict_delitem self name else self.

(** [if name in self.data: return self.data[name]] and [None]
    otherwise. *)
Definition find (self : t) (name : string) : option ContactRecord.t :=
  if dict_contains self name then dict_getitem self name else None.

(** The body of the loop of [get_upcoming_birthdays] for one contact:
    the list [upcoming_birthdays] after it. *)
Definition visit (today next_week : datetime)
           (upcoming_birthdays : list ContactRecord.t)
           (contact : ContactRecord.t)
  : result (list ContactRecord.t) :=
  match ContactRecord.birthday contact with
  | None => Ok upcoming_birthdays
  | Some b =>
      (* a Birthday object is true; [and] then reads its [date], and a
         date is true too *)
      d0 <- getattr (Birthday.date b) ;;
      value <- getattr (Birthday.value b) ;;
      d <- strptime_dmY value ;;
      let contact_birthday := combine_min_time d in
      contact_birthday <- replace_year contact_birthday (dt_year today) ;;
      if datetime_le today contact_birthday
         && datetime_le contact_birthday next_week
      then Ok (upcoming_birthdays ++ [contact])
      else if datetime_lt next_week today
              && (dt_year contact_birthday =? dt_year today + 1)
      then Ok (upcoming_birthdays ++ [contact])
      else Ok upcoming_birthdays
  end.

(** [now] is what [datetime.now()] returns when the method runs. *)
Definition get_upcoming_birthdays (self : t) (now : datetime)
  : result (list ContactRecord.t) :=
  let upcoming_birthdays := [] in
  let today := now in
  next_week <- add_days today 7 ;;
  for_each (visit today next_week) (dict_values self) upcoming_birthdays.

End AddressBook.

(* ===================================================================== *)
(** ** Sequences of operations on an address book *)

Inductive op : Type :=
| AddRecord (record : ContactRecord.t)
| Delete (name : string)
| Find (name : string)
| GetUpcomingBirthdays (now : datetime).

(** What a call hands back to its caller. *)
Inductive answer : Type :=
| Done
| Found (record : option ContactRecord.t)
| Upcoming (records : result (list ContactRecord.t)).

(** One call on the book: the book after it, and the answer. *)
Definition exec (book : AddressBook.t) (o : op) : AddressBook.t * answer :=
  match o with
  | AddRecord record => (AddressBook.add_record book record, Done)
  | Delete name => (AddressBook.delete book name, Done)
  | Find name => (book, Found (AddressBook.find book name))
  | GetUpcomingBirthdays now =>
      (book, Upcoming (AddressBook.get_upcoming_birthdays book now))
  end.

Definition run (ops : list op) (book : AddressBook.t) : AddressBook.t :=
  fold_left (fun b o => fst (exec b o)) ops book.

(** Every record is stored under the text of its own name. *)
Definition keyed_by_name (book : AddressBook.t) : Prop :=
  Forall
    (fun entry => Name.value (ContactRecord.name (snd entry)) = fst entry)
    book.

(** Every phone of the record was allocated on a heap below [h]. *)
Definition allocated (h : heap) (r : ContactRecord.t) : Prop :=
  Forall (fun p => (Phone.id p < h)%nat) (ContactRecord.phones r).

(** The loop of [get_upcoming_birthdays] gets past this contact. *)
Definition passes (today next_week : datetime) (contact : ContactRecord.t)
  : bool :=
  is_ok (AddressBook.visit today next_week [] contact).

(** The midnight of the contact's birthday in the year of [today], for
    a contact whose birthday text parses to a day that this year has. *)
Definition candidate (today : datetime) (contact : ContactRecord.t)
  : option datetime :=
  match ContactRecord.birthday contact with
  | Some b =>
      match Birthday.value b with
      | Some value =>
          match strptime_dmY value with
          | Ok d =>
              match replace_year (combine_min_time d) (dt_year today) with
              | Ok contact_birthday => Some contact_birthday
              | Raise _ => None
              end
          | Raise _ => None
          end
      | None => None
      end
  | None => None
  end.

(** [today <= candidate <= next_week], on instants. *)
Definition in_window (today next_week : datetime) (contact : ContactRecord.t)
  : bool :=
  match candidate today contact with
  | Some contact_birthday =>
      datetime_le today contact_birthday
      && datetime_le contact_birthday next_week
  | None => false
  end.

(** [d.keys()] *)
Definition dict_keys {V : Type} (d : dict V) : list string := map fst d.

(** The property of a [dict] that the list of entries has to keep: no key
    twice. *)
Definition unique_keys {V : Type} (d : dict V) : Prop := NoDup (dict_keys d).

(** The texts of the phones of a record, in order. *)
Definition phone_values (r : ContactRecord.t) : list string :=
  map Phone.value (ContactRecord.phones r).

(** A date of the calendar, as [_check_date_fields] tests it. *)
Definition valid_date (y m d : Z) : Prop :=
  MINYEAR <= y <= MAXYEAR /\ 1 <= m <= 12 /\ 1 <= d <= _days_in_month y m.

(** The last lines of [_ord2ymd]: month and day of the day with index
    [n] (0 for 1 January) of a year. *)
Definition month_day_of (leapyear : bool) (n : Z) : Z * Z :=
  let month := Z.shiftr (n + 50) 5 in
  let preceding :=
    index _DAYS_BEFORE_MONTH month
    + (if (2 <? month) && leapyear then 1 else 0) in
  if n <? preceding then
    let month := month - 1 in
    let preceding :=
      preceding
      - (index _DAYS_IN_MONTH month
         + (if (month =? 2) && leapyear then 1 else 0)) in
    (month, n - preceding + 1)
  else (month, n - preceding + 1).

Definition month_day_ok (leapyear : bool) (n : Z) : bool :=
  let md := month_day_of leapyear n in
  let m := fst md in
  let d := snd md in
  (1 <=? m) && (m <=? 12) && (1 <=? d)
  && (d <=? (if (m =? 2) && leapyear then 29 else index _DAYS_IN_MONTH m))
  && (index _DAYS_BEFORE_MONTH m
      + (if (2 <? m) && leapyear then 1 else 0) + d =? n + 1).

(** The time of day is 00:00:00.000000. *)
Definition midnight (t : datetime) : bool :=
  (hour t =? 0) && (minute t =? 0) && (second t =? 0) && (microsecond t =? 0).

(** The twelve months, one goal each. *)
Ltac month_cases m :=
  let H := fresh in
  assert (H : m = 1 \/ m = 2 \/ m = 3 \/ m = 4 \/ m = 5 \/ m = 6 \/ m = 7
              \/ m = 8 \/ m = 9 \/ m = 10 \/ m = 11 \/ m = 12) by lia;
  repeat (destruct H as [H|H]; [subst m|]); [..|subst m].

(** Evaluating closed tests and table look-ups, in the goal and in the
    hypotheses. *)
Ltac eval_closed t :=
  let v := eval vm_compute in t in
  first [constr_eq v true | constr_eq v false | is_evar v | idtac];
  lazymatch v with
  | true => change t with true in *
  | false => change t with false in *
  | Zpos _ => change t with v in *
  | Zneg _ => change t with v in *
  | Z0 => change t with v in *
  end.

Ltac eval_tables :=
  repeat match goal with
         | |- context [index ?t ?k] => eval_closed (index t k)
         | H : context [index ?t ?k] |- _ => eval_closed (index t k)
         | |- context [Z.eqb ?a ?b] => eval_closed (Z.eqb a b)
         | H : context [Z.eqb ?a ?b] |- _ => eval_closed (Z.eqb a b)
         | |- context [Z.ltb ?a ?b] => eval_closed (Z.ltb a b)
         | H : context [Z.ltb ?a ?b] |- _ => eval_closed (Z.ltb a b)
         end;
  cbv beta iota delta [andb orb negb] in *.

(* ===================================================================== *)
(** ** The command handlers *)

(** At the level of the handlers two more things can happen than in the
    classes above. [change_contact] rebinds [phones] to a list that holds
    the text it was given, not a [Phone], so a phone list holds objects and
    texts; and [str.join] raises [TypeError] on an item that is not text.
    The handlers are therefore modelled on records whose phone list is
    mixed. The book holds each record object under one key only, so the
    change of a stored object in place is the change of its entry. *)

(** What a handler can raise: the exceptions above, [TypeError] and
    [KeyError]. *)
Inductive error : Type :=
| Exn (e : exn)
| TypeError
| KeyError.

Inductive res (A : Type) : Type :=
| Returns (a : A)
| Raises (e : error).

Arguments Returns {A} a.
Arguments Raises {A} e.

(** An item of [record.phones]. *)
Inductive item : Type :=
| PhoneObject (p : Phone.t)
| Text (s : string).

(** [str(item)] *)
Definition item_str (i : item) : string :=
  match i with
  | PhoneObject p => Phone.value p
  | Text s => s
  end.

(** The class [Record], with the phone list as the handlers can leave
    it. *)
Module Contact.

Record t : Type := mk
  { name : Name.t;
    phones : list item;
    birthday : option Birthday.t }.

Definition __init__ (name : string) : result t :=
  n <- Name.__init__ name ;;
  Ok (mk n [] None).

(** [self.phones.append(Phone(phone))] *)
Definition add_phone (self : t) (phone : string) : M t :=
  p <~ Phone.__init__ phone ;;
  ret (mk (name self) (phones self ++ [PhoneObject p]) (birthday self)).

(** [self.birthday = Birthday(birthday)] *)
Definition add_birthday (self : t) (birthday : string) : result t :=
  b <- Birthday.__init__ birthday ;;
  Ok (mk (name self) (phones self) (Some b)).

(** A record of the classes above, as a record here. *)
Definition of_record (r : ContactRecord.t) : t :=
  mk (ContactRecord.name r) (map PhoneObject (ContactRecord.phones r))
     (ContactRecord.birthday r).

Fixpoint phone_objects (items : list item) : list Phone.t :=
  match items with
  | [] => []
  | PhoneObject p :: items' => p :: phone_objects items'
  | Text _ :: items' => phone_objects items'
  end.

(** The record without the texts in its phone list. *)
Definition erase (c : t) : ContactRecord.t :=
  ContactRecord.mk (name c) (phone_objects (phones c)) (birthday c).

End Contact.

(** The body of the loop of [get_upcoming_birthdays] again, for any kind
    of record that has a birthday. *)
Definition visit_of {R : Type} (birthday : R -> option Birthday.t)
           (today next_week : datetime)
           (upcoming_birthdays : list R) (contact : R) : result (list R) :=
  match birthday contact with
  | None => Ok upcoming_birthdays
  | Some b =>
      d0 <- getattr (Birthday.date b) ;;
      value <- getattr (Birthday.value b) ;;
      d <- strptime_dmY value ;;
      let contact_birthday := combine_min_time d in
      contact_birthday <- replace_year contact_birthday (dt_year today) ;;
      if datetime_le today contact_birthday
         && datetime_le contact_birthday next_week
      then Ok (upcoming_birthdays ++ [contact])
      else if datetime_lt next_week today
              && (dt_year contact_birthday =? dt_year today + 1)
      then Ok (upcoming_birthdays ++ [contact])
      else Ok upcoming_birthdays
  end.

(** The book of a session, and the heap. *)
Definition state : Type := (dict Contact.t * heap)%type.

Definition book_of (st : state) : dict Contact.t := fst st.

(** [book.get_upcoming_birthdays()] *)
Definition upcoming (book : dict Contact.t) (now : datetime)
  : result (list Contact.t) :=
  next_week <- add_days now 7 ;;
  for_each (visit_of Contact.birthday now next_week) (dict_values book) [].

(** Handlers run on the state; an exception leaves the state as it was
    when it was raised. *)
Definition Cmd (A : Type) : Type := state -> res A * state.

Definition hret {A : Type} (a : A) : Cmd A := fun st => (Returns a, st).

Definition hbind {A B : Type} (c : Cmd A) (k : A -> Cmd B) : Cmd B :=
  fun st =>
    match c st with
    | (Returns a, st') => k a st'
    | (Raises e, st') => (Raises e, st')
    end.

Notation "x <<- c ;; k" := (hbind c (fun x => k))
  (at level 61, c at next level, right associativity) : py_scope.

Definition of_result {A : Type} (c : result A) : Cmd A :=
  fun st =>
    match c with
    | Ok a => (Returns a, st)
    | Raise e => (Raises (Exn e), st)
    end.

Definition of_M {A : Type} (c : M A) : Cmd A :=
  fun st =>
    match c (snd st) with
    | Ok (a, h') => (Returns a, (fst st, h'))
    | Raise e => (Raises (Exn e), st)
    end.

(** [name in book] *)
Definition contains (name : string) : Cmd bool :=
  fun st => (Returns (dict_contains (book_of st) name), st).

(** [book[name]] *)
Definition getitem (name : string) : Cmd Contact.t :=
  fun st =>
    match dict_getitem (book_of st) name with
    | Some record => (Returns record, st)
    | None => (Raises KeyError, st)
    end.

(** [book.find(name)] *)
Definition find (name : string) : Cmd (option Contact.t) :=
  fun st =>
    (Returns (if dict_contains (book_of st) name
              then dict_getitem (book_of st) name else None), st).

(** The entry of [key] is now [record]: a stored record that a method
    changed in place, or [self.data[key] = record]. *)
Definition store (key : string) (record : Contact.t) : Cmd unit :=
  fun st => (Returns tt, (dict_setitem (book_of st) key record, snd st)).

(** [book.add_record(record)] *)
Definition add_record (record : Contact.t) : Cmd unit :=
  store (Name.value (Contact.name record)) record.

(** [a, b = args] *)
Definition unpack2 (args : list string) : result (string * string) :=
  match args with
  | [a; b] => Ok (a, b)
  | _ => Raise ValueError
  end.

(** [sep.join(parts)] on texts. *)
Fixpoint join (sep : string) (parts : list string) : string :=
  match parts with
  | [] => EmptyString
  | [p] => p
  | p :: parts' => (p ++ sep ++ join sep parts')%string
  end.

(** The items of a list as texts, for [join]: an item that is not text
    is a [TypeError]. *)
Fixpoint texts (items : list item) : res (list string) :=
  match items with
  | [] => Returns []
  | Text s :: items' =>
      match texts items' with
      | Returns l => Returns (s :: l)
      | Raises e => Raises e
      end
  | PhoneObject _ :: _ => Raises TypeError
  end.

Definition newline : string := String (ascii_of_nat 10) EmptyString.

Definition give_me : string := "Give me name and phone please.".

(** What a handler returns: a text, or [None]. *)
Definition handler : Type := list string -> Cmd (option string).

(** The decorator [input_error]. *)
Definition input_error (func : handler) : handler :=
  fun args st =>
    match func args st with
    | (Raises (Exn ValueError), st') => (Returns (Some give_me), st')
    | (Raises (Exn IndexError), st') => (Returns (Some give_me), st')
    | (Raises KeyError, st') => (Returns (Some give_me), st')
    | other => other
    end.

Definition add_contact_body : handler :=
  fun args =>
    pair <<- of_result (unpack2 args) ;;
    let name := fst pair in
    let phone := snd pair in
    known <<- contains name ;;
    if known : bool then
      record <<- getitem name ;;
      record <<- of_M (Contact.add_phone record phone) ;;
      u <<- store name record ;;
      hret (Some "Contact updated.")
    else
      record <<- of_result (Contact.__init__ name) ;;
      record <<- of_M (Contact.add_phone record phone) ;;
      u <<- add_record record ;;
      hret (Some "Contact added.").

Definition add_contact : handler := input_error add_contact_body.

Definition not_found (name : string) : string :=
  ("Contact with name " ++ name ++ " not found.")%string.

Definition change_contact_body : handler :=
  fun args =>
    pair <<- of_result (unpack2 args) ;;
    let name := fst pair in
    let new_phone := snd pair in
    known <<- contains name ;;
    if known : bool then
      record <<- getitem name ;;
      u <<- store name (Contact.mk (Contact.name record) [Text new_phone]
                                   (Contact.birthday record)) ;;
      hret (Some "Contact updated.")
    else hret (Some (not_found name)).

Definition change_contact : handler := input_error change_contact_body.

Definition show_phone_body : handler :=
  fun args =>
    name <<- of_result (list_getitem args 0) ;;
    known <<- contains name ;;
    if known : bool then
      record <<- getitem name ;;
      parts <<- (fun st => (texts (Contact.phones record), st)) ;;
      hret (Some ("Phone number for " ++ name ++ ": " ++ join ", " parts)%string)
    else hret (Some (not_found name)).

Definition show_phone : handler := input_error show_phone_body.

(** One line of [show_all]. *)
Definition contact_line (entry : string * Contact.t) : string :=
  (fst entry ++ ": " ++ join ", " (map item_str (Contact.phones (snd entry)))
   ++ newline)%string.

Definition show_all_body : handler :=
  fun args st =>
    match book_of st with
    | [] => (Returns (Some "No contacts saved."), st)
    | entries =>
        (Returns (Some (fold_left (fun result entry =>
                                     (result ++ contact_line entry)%string)
                                  entries
                                  ("All contacts:" ++ newline)%string)), st)
    end.

Definition show_all : handler := input_error show_all_body.

Definition add_birthday_body : handler :=
  fun args =>
    pair <<- of_result (unpack2 args) ;;
    let name := fst pair in
    let birthday := snd pair in
    contact <<- find name ;;
    match contact with
    | Some record =>
        record <<- of_result (Contact.add_birthday record birthday) ;;
        u <<- store name record ;;
        hret (Some ("Birthday added for " ++ name)%string)
    | None =>
        record <<- of_result (Contact.__init__ name) ;;
        record <<- of_result (Contact.add_birthday record birthday) ;;
        u <<- add_record record ;;
        hret (Some ("New contact " ++ name ++ " created with birthday "
                    ++ birthday)%string)
    end.

Definition add_birthday : handler := input_error add_birthday_body.

(** [contact.birthday.value]: [contact.birthday] may be [None], and the
    object may lack its [value]. *)
Definition birthday_value (c : Contact.t) : result string :=
  b <- getattr (Contact.birthday c) ;;
  getattr (Birthday.value b).

Definition show_birthday_body : handler :=
  fun args =>
    match args with
    | [] => of_result (Raise ValueError)
    | name :: _ =>
        contact <<- find name ;;
        match contact with
        | Some record =>
            value <<- of_result (birthday_value record) ;;
            hret (Some (Name.value (Contact.name record)
                        ++ "'s birthday is on " ++ value)%string)
        | None => hret (Some ("No contact found with name " ++ name)%string)
        end
    end.

Definition show_birthday : handler := input_error show_birthday_body.

(** [f"{contact.name}: {contact.birthday.value}"] for each contact. *)
Fixpoint birthday_lines (contacts : list Contact.t) : result (list string) :=
  match contacts with
  | [] => Ok []
  | c :: contacts' =>
      value <- birthday_value c ;;
      rest <- birthday_lines contacts' ;;
      Ok ((Name.value (Contact.name c) ++ ": " ++ value)%string :: rest)
  end.

(** [now] is what [datetime.now()] returns inside the query. *)
Definition birthdays_body (now : datetime) : handler :=
  fun args =>
    upcoming_birthdays <<- (fun st => of_result (upcoming (book_of st) now) st) ;;
    match upcoming_birthdays with
    | [] => hret None
    | _ =>
        lines <<- of_result (birthday_lines upcoming_birthdays) ;;
        hret (Some ("Upcoming birthdays:" ++ newline ++ join newline lines)%string)
    end.

Definition birthdays (now : datetime) : handler :=
  input_error (birthdays_body now).

(* ===================================================================== *)
(** ** The command line *)

(** [c.isspace()], which is what [str.split()] and [str.strip()] cut at:
    below U+0100 the characters U+0009..U+000D, U+001C..U+0020, U+0085
    and U+00A0. *)
Definition isspace (c : ascii) : bool :=
  between 9 13 c || between 28 32 c || (ord c =? 133) || (ord c =? 160).

(** [c.lower()]: below U+0100 the capital letters are A..Z and
    U+00C0..U+00DE without the multiplication sign U+00D7, each 32 below
    its small letter. *)
Definition char_lower (c : ascii) : ascii :=
  if between 65 90 c || (between 192 222 c && negb (ord c =? 215))
  then ascii_of_nat (nat_of_ascii c + 32)
  else c.

Fixpoint lower (s : string) : string :=
  match s with
  | EmptyString => EmptyString
  | String c s' => String (char_lower c) (lower s')
  end.

(** [s.split()]: the maximal runs of characters that are not space;
    [word] is the run that is being read. *)
Fixpoint split_from (word : option string) (s : string) : list string :=
  match s with
  | EmptyString =>
      match word with
      | Some w => [w]
      | None => []
      end
  | String c s' =>
      if isspace c then
        match word with
        | Some w => w :: split_from None s'
        | None => split_from None s'
        end
      else
        match word with
        | Some w => split_from (Some (w ++ String c EmptyString)%string) s'
        | None => split_from (Some (String c EmptyString)) s'
        end
  end.

Definition split (s : string) : list string := split_from None s.

Fixpoint lstrip_space (s : string) : string :=
  match s with
  | String c s' => if isspace c then lstrip_space s' else s
  | EmptyString => s
  end.

Fixpoint rstrip_space (s : string) : string :=
  match s with
  | EmptyString => EmptyString
  | String c s' =>
      match rstrip_space s' with
      | EmptyString => if isspace c then EmptyString else String c EmptyString
      | rest => String c rest
      end
  end.

(** [s.strip()] *)
Definition strip (s : string) : string := rstrip_space (lstrip_space s).

(** [cmd, *args = user_input.split()]: no word at all is a
    [ValueError]. *)
Definition parse_input (user_input : string) : result (string * list string) :=
  match split user_input with
  | [] => Raise ValueError
  | cmd :: args => Ok (lower (strip cmd), args)
  end.

(** What [WebInterface.send_message] prints. *)
Definition send_message (message : option string) : string :=
  ("FAKEWEB " ++ match message with
                 | Some text => text
                 | None => "None"
                 end)%string.

(** One turn of the loop of [main]. *)
Inductive turn : Type :=
| Printed (line : option string) (st : state)
| Stopped (line : string) (st : state)
| Crashed (e : error) (st : state).

Definition answer_of (r : res (option string) * state) : turn :=
  match r with
  | (Returns message, st) => Printed (Some (send_message message)) st
  | (Raises e, st) => Crashed e st
  end.

(** The body of [while True:] for one line of input; [now] is the clock
    at that moment. [parse_input] is called outside every [input_error],
    so what it raises ends the program. *)
Definition step (user_input : string) (now : datetime) (st : state) : turn :=
  match parse_input user_input with
  | Raise e => Crashed (Exn e) st
  | Ok (command, args) =>
      if String.eqb command "close" || String.eqb command "exit"
      then Stopped (send_message (Some "Good bye!")) st
      else if String.eqb command "hello"
      then Printed (Some (send_message (Some "How can I help you?"))) st
      else if String.eqb command "add"
      then answer_of (add_contact args st)
      else if String.eqb command "change"
      then answer_of (change_contact args st)
      else if String.eqb command "phone"
      then answer_of (show_phone args st)
      else if String.eqb command "all"
      then answer_of (show_all args st)
      else if String.eqb command "add-birthday"
      then answer_of (add_birthday args st)
      else if String.eqb command "show-birthday"
      then answer_of (show_birthday args st)
      else if String.eqb command "birthdays"
      then answer_of (birthdays now args st)
      else Printed None st
  end.

Definition state_of (t : turn) : state :=
  match t with
  | Printed _ st => st
  | Stopped _ st => st
  | Crashed _ st => st
  end.

(** The lines printed and the state reached by the loop on the given
    inputs, up to the end of the inputs, the [break], or the exception
    that ends the program. *)
Fixpoint session (inputs : list (string * datetime)) (st : state)
  : list string * state :=
  match inputs with
  | [] => ([], st)
  | (user_input, now) :: inputs' =>
      match step user_input now st with
      | Printed (Some line) st' =>
          let rest := session inputs' st' in (line :: fst rest, snd rest)
      | Printed None st' => session inputs' st'
      | Stopped line st' => ([line], st')
      | Crashed _ st' => ([], st')
      end
  end.

(** Every record is stored under the text of its own name, and no name
    is there twice. *)
Definition well_keyed (book : dict Contact.t) : Prop :=
  Forall (fun entry => Name.value (Contact.name (snd entry)) = fst entry) book
  /\ unique_keys book.

(** A state that has no session behind it. *)
Definition fresh_state : state := ([], 0%nat).

(** A handler that keeps books well keyed, raises nothing but the
    errors in [allowed], and raises before it changes anything. *)
Definition handler_ok (allowed : error -> Prop) (f : handler) : Prop :=
  forall args st,
    match f args st with
    | (Returns _, st') => well_keyed (book_of st) -> well_keyed (book_of st')
    | (Raises e, st') => st' = st /\ allowed e
    end.

(** A word as [split] cuts it: not empty, and no space in it. *)
Definition word (w : string) : Prop :=
  w <> EmptyString /\ string_forallb (fun c => negb (isspace c)) w = true.

(* ===================================================================== *)
(** ** Sample objects *)

(** SUPERSCRIPT TWO, U+00B2. *)
Definition superscript_two : ascii := ascii_of_nat 178.

Definition ann : ContactRecord.t :=
  ContactRecord.mk (Name.mk "Ann") [Phone.mk 0 "1234567890"] None.

Definition with_birthday (name value : string) (d : date) : ContactRecord.t :=
  ContactRecord.mk (Name.mk name) []
                   (Some (Birthday.mk (Some d) (Some value))).

(** A birthday on the day of the query, one inside the window, and a
    leap day. *)
Definition alice_20_08 : ContactRecord.t :=
  with_birthday "Alice" "20.08.1991" (mkDate 1991 8 20).

Definition alice_24_08 : ContactRecord.t :=
  with_birthday "Alice" "24.08.1991" (mkDate 1991 8 24).

Definition leapling : ContactRecord.t :=
  with_birthday "Leap" "29.02.2000" (mkDate 2000 2 29).

(** What [add_birthday("abc")] leaves behind. *)
Definition bob_unparsed : ContactRecord.t :=
  ContactRecord.mk (Name.mk "Bob") [] (Some (Birthday.mk None None)).

Definition noon_2024_08_20 : datetime := mkDatetime 2024 8 20 12 0 0 0.
Definition midnight_2024_08_20 : datetime := mkDatetime 2024 8 20 0 0 0 0.
Definition noon_2023_08_20 : datetime := mkDatetime 2023 8 20 12 0 0 0.

(* ===================================================================== *)
(** ** The sample objects are what the constructors build *)

Example ann_built :
  (r <~ lift (ContactRecord.__init__ "Ann") ;;
   ContactRecord.add_phone r "1234567890") 0%nat
  = Ok (ann, 1%nat).
Proof. reflexivity. Qed.

Example alice_20_08_built :
  (r <- ContactRecord.__init__ "Alice" ;;
   ContactRecord.add_birthday r "20.08.1991")
  = Ok alice_20_08.
Proof. reflexivity. Qed.

Example alice_24_08_built :
  (r <- ContactRecord.__init__ "Alice" ;;
   ContactRecord.add_birthday r "24.08.1991")
  = Ok alice_24_08.
Proof. reflexivity. Qed.

Example leapling_built :
  (r <- ContactRecord.__init__ "Leap" ;;
   ContactRecord.add_birthday r "29.02.2000")
  = Ok leapling.
Proof. reflexivity. Qed.

Example bob_unparsed_built :
  (r <- ContactRecord.__init__ "Bob" ;;
   ContactRecord.add_birthday r "abc")
  = Ok bob_unparsed.
Proof. reflexivity. Qed.

(* ===================================================================== *)
(** ** Phone: validation *)

Lemma Phone_init_accepts (s : string) (h : heap) :
  (len s =? 10) && str_isdigit s = true ->
  Phone.__init__ s h = Ok (Phone.mk h s, S h).
Proof.
  intros Hv.
  unfold Phone.__init__, mbind, new_object, lift, ret, Phone.value_setter.
  rewrite Hv. reflexivity.
Qed.

Lemma Phone_init_refuses (s : string) (h : heap) :
  (len s =? 10) && str_isdigit s = false ->
  Phone.__init__ s h = Raise ValueError.
Proof.
  intros Hv.
  unfold Phone.__init__, mbind, new_object, lift, ret, Phone.value_setter.
  rewrite Hv. reflexivity.
Qed.

Lemma ascii_digit_isdigit (c : ascii) :
  is_ascii_digit c = true -> char_isdigit c = true.
Proof. intros H. unfold char_isdigit. rewrite H. reflexivity. Qed.

Lemma string_forallb_impl (p q : ascii -> bool) (s : string) :
  (forall c, p c = true -> q c = true) ->
  string_forallb p s = true -> string_forallb q s = true.
Proof.
  intros Hpq. induction s as [|c s IH]; simpl; [reflexivity|].
  intros H. apply andb_true_iff in H. destruct H as [Hc Hs].
  rewrite (Hpq c Hc), (IH Hs). reflexivity.
Qed.

(** The second testable property of the specification: a text of ten
    ASCII digits is a valid phone and is stored as it is. *)
Lemma Phone_ten_ascii_digits (s : string) (h : heap) :
  len s = 10 -> string_forallb is_ascii_digit s = true ->
  Phone.__init__ s h = Ok (Phone.mk h s, S h).
Proof.
  intros Hl Hd. apply Phone_init_accepts.
  apply andb_true_iff. split.
  - apply Z.eqb_eq. exact Hl.
  - destruct s as [|c s]; [discriminate Hl|].
    unfold str_isdigit.
    apply (string_forallb_impl is_ascii_digit); [apply ascii_digit_isdigit|exact Hd].
Qed.

(** C6, as amended. [Phone(s)] succeeds exactly when [s] has ten
    characters and [s.isdigit()] holds, which beside the ASCII digits
    admits the other digit characters of Unicode (in U+0000..U+00FF the
    superscripts one, two and three); on success the stored value is [s]
    unchanged, and every other text is refused with [ValueError]. *)
Theorem Phone_init_iff (s : string) (h : heap) :
  ((exists p h', Phone.__init__ s h = Ok (p, h'))
   <-> (len s = 10 /\ str_isdigit s = true))
  /\ (forall p h', Phone.__init__ s h = Ok (p, h') -> Phone.value p = s)
  /\ (~ (len s = 10 /\ str_isdigit s = true) ->
      Phone.__init__ s h = Raise ValueError).
Proof.
  destruct ((len s =? 10) && str_isdigit s) eqn:Hv.
  - rewrite (Phone_init_accepts s h Hv).
    apply andb_true_iff in Hv. destruct Hv as [Hl Hd].
    apply Z.eqb_eq in Hl.
    split; [|split].
    + split; [intros _; split; assumption | intros _; eauto].
    + intros p h' Heq. inversion Heq. reflexivity.
    + intros Hn. exfalso. apply Hn. split; assumption.
  - rewrite (Phone_init_refuses s h Hv).
    split; [|split].
    + split.
      * intros [p [h' Heq]]. discriminate Heq.
      * intros [Hl Hd]. apply Z.eqb_eq in Hl.
        rewrite Hl, Hd in Hv. discriminate Hv.
    + intros p h' Heq. discriminate Heq.
    + intros _. reflexivity.
Qed.

Lemma Phone_init_iff_witness :
  (exists p h', Phone.__init__ "1234567890" 0%nat = Ok (p, h'))
  /\ Phone.__init__ "12345" 0%nat = Raise ValueError.
Proof.
  split.
  - apply (proj1 (Phone_init_iff "1234567890" 0%nat)).
    split; reflexivity.
  - apply (proj2 (proj2 (Phone_init_iff "12345" 0%nat))).
    intros [Hl _]. discriminate Hl.
Defined.

(** C6, counterexample. A text of ten characters that ends in SUPERSCRIPT
    TWO is not made of ASCII digits, and [Phone] accepts it. *)
Lemma Phone_accepts_superscript_two :
  let s := ("123456789" ++ String superscript_two EmptyString)%string in
  string_forallb is_ascii_digit s = false
  /\ String.length s = 10%nat
  /\ Phone.__init__ s 0%nat = Ok (Phone.mk 0 s, 1%nat).
Proof. repeat split. Qed.

(* ===================================================================== *)
(** ** Record: the phone list *)

Lemma list_remove_fresh (l : list Phone.t) (h : heap) (v : string) :
  Forall (fun p => (Phone.id p < h)%nat) l ->
  list_remove Phone.__eq__ l (Phone.mk h v) = Raise ValueError.
Proof.
  induction 1 as [|p l Hp _ IH]; simpl; [reflexivity|].
  unfold Phone.__eq__ at 1. simpl.
  destruct (Nat.eqb_spec (Phone.id p) h) as [Heq|_]; [lia|].
  rewrite IH. reflexivity.
Qed.

(** The phones of a record stay below the heap when a phone is added. *)
Lemma add_phone_allocated (r r' : ContactRecord.t) (phone : string) (h h' : heap) :
  allocated h r ->
  ContactRecord.add_phone r phone h = Ok (r', h') ->
  allocated h' r'.
Proof.
  intros Ha. unfold ContactRecord.add_phone, mbind, ret.
  destruct ((len phone =? 10) && str_isdigit phone) eqn:Hv.
  - rewrite (Phone_init_accepts phone h Hv). intros Heq. inversion Heq; subst.
    unfold allocated in *. simpl.
    apply Forall_app. split.
    + eapply Forall_impl; [|exact Ha]. simpl. intros p Hp. lia.
    + constructor; [simpl; lia|constructor].
  - rewrite (Phone_init_refuses phone h Hv). discriminate.
Qed.

(** C1: what the code does where the claim promises a removal. The phone
    that [delete_phone] hands to [list.remove] is a new object, and phones
    are compared by identity, so no stored phone is equal to it: for every
    record and every text the call raises [ValueError], also when a stored
    phone has that very value. *)
Theorem delete_phone_always_raises
        (r : ContactRecord.t) (phone : string) (h : heap) :
  allocated h r ->
  ContactRecord.delete_phone r phone h = Raise ValueError.
Proof.
  intros Ha. unfold ContactRecord.delete_phone, mbind.
  destruct ((len phone =? 10) && str_isdigit phone) eqn:Hv.
  - rewrite (Phone_init_accepts phone h Hv).
    unfold lift. rewrite (list_remove_fresh _ h phone Ha). reflexivity.
  - rewrite (Phone_init_refuses phone h Hv). reflexivity.
Qed.

Lemma delete_phone_always_raises_witness :
  allocated 1%nat ann
  /\ ContactRecord.find_phone ann "1234567890" = Some "1234567890"
  /\ ContactRecord.delete_phone ann "1234567890" 1%nat = Raise ValueError.
Proof.
  assert (Ha : allocated 1%nat ann).
  { unfold allocated, ann. simpl. constructor; [simpl; lia|constructor]. }
  split; [exact Ha|]. split; [reflexivity|].
  apply (delete_phone_always_raises ann "1234567890" 1%nat Ha).
Defined.

Lemma find_in_none_head (p : Phone.t) (ps : list Phone.t) (phone : string) :
  ContactRecord.find_in (p :: ps) phone = None ->
  String.eqb (Phone.value p) phone = false.
Proof.
  simpl. destruct (String.eqb (Phone.value p) phone); [discriminate|reflexivity].
Qed.

(** [find_phone] answers [None] exactly when no stored phone has the
    value. *)
Lemma find_in_none_iff (ps : list Phone.t) (phone : string) :
  ContactRecord.find_in ps phone = None
  <-> (forall p, In p ps -> Phone.value p <> phone).
Proof.
  induction ps as [|q ps IH]; simpl.
  - split; [intros _ p []|reflexivity].
  - destruct (String.eqb_spec (Phone.value q) phone) as [Heq|Hne].
    + split; [discriminate|]. intros H. exfalso. apply (H q); auto.
    + rewrite IH. split.
      * intros H p [<-|Hin]; auto.
      * intros H p Hin. apply H. auto.
Qed.

(** C4, as amended. When no stored phone has the value [old],
    [edit_phone(old, new)] does not fail: it returns normally, the record
    is as it was, and [new] is not looked at. *)
Theorem edit_phone_absent_unchanged
        (r : ContactRecord.t) (old_phone new_phone : string) (h : heap) :
  (forall p, In p (ContactRecord.phones r) -> Phone.value p <> old_phone) ->
  ContactRecord.edit_phone r old_phone new_phone h = Ok (r, h).
Proof.
  intros Habs. apply find_in_none_iff in Habs.
  unfold ContactRecord.edit_phone.
  destruct (ContactRecord.phones r) as [|p ps] eqn:Hps; simpl; [reflexivity|].
  unfold ContactRecord.edit_phone_at, mbind, lift, list_getitem.
  rewrite Hps. simpl.
  rewrite (find_in_none_head p ps old_phone Habs). reflexivity.
Qed.

Lemma edit_phone_absent_unchanged_witness :
  ContactRecord.edit_phone ann "5555555555" "not a phone" 1%nat = Ok (ann, 1%nat).
Proof.
  apply (edit_phone_absent_unchanged ann "5555555555" "not a phone" 1%nat).
  intros p [<-|[]]. simpl. discriminate.
Defined.

(** C4, counterexample. No phone of the record has the value
    ["5555555555"], and [edit_phone] returns without an exception. *)
Lemma edit_phone_absent_returns :
  (forall p, In p (ContactRecord.phones ann) -> Phone.value p <> "5555555555")
  /\ ContactRecord.edit_phone ann "5555555555" "0987654321" 1%nat
     = Ok (ann, 1%nat).
Proof.
  split; [|reflexivity].
  intros p [<-|[]]. simpl. discriminate.
Qed.

(** C7. When the phone at index 0 has the value [old] and [new] is a
    valid phone (ten characters, all digits: every text of ten ASCII
    digits is one), [edit_phone(old, new)] puts a phone with value [new]
    at index 0 and leaves the later phones, the name and the birthday as
    they were. *)
Theorem edit_phone_first_match
        (r : ContactRecord.t) (p0 : Phone.t) (later : list Phone.t)
        (old_phone new_phone : string) (h : heap) :
  ContactRecord.phones r = p0 :: later ->
  Phone.value p0 = old_phone ->
  len new_phone = 10 ->
  str_isdigit new_phone = true ->
  exists q h',
    ContactRecord.edit_phone r old_phone new_phone h
    = Ok (ContactRecord.mk (ContactRecord.name r) (q :: later)
                           (ContactRecord.birthday r), h')
    /\ Phone.value q = new_phone.
Proof.
  intros Hps Hold Hl Hd.
  exists (Phone.mk h new_phone), (S h). split; [|reflexivity].
  unfold ContactRecord.edit_phone. rewrite Hps. simpl.
  unfold ContactRecord.edit_phone_at, mbind, lift, list_getitem.
  rewrite Hps. simpl.
  rewrite Hold, String.eqb_refl.
  rewrite Phone_init_accepts; [reflexivity|].
  rewrite Hd. apply Z.eqb_eq in Hl. rewrite Hl. reflexivity.
Qed.

(** The scenario of the specification: the only phone ["1234567890"]
    becomes the only phone ["0987654321"]. *)
Lemma edit_phone_first_match_witness :
  exists q h',
    ContactRecord.edit_phone ann "1234567890" "0987654321" 1%nat
    = Ok (ContactRecord.mk (Name.mk "Ann") [q] None, h')
    /\ Phone.value q = "0987654321".
Proof.
  apply (edit_phone_first_match ann (Phone.mk 0 "1234567890") []
                                "1234567890" "0987654321" 1%nat);
    reflexivity.
Defined.

(** A phone after index 0 is never reached: the loop has ended. *)
Example edit_phone_second_phone_untouched :
  let r := ContactRecord.mk (Name.mk "Ann")
             [Phone.mk 0 "1234567890"; Phone.mk 1 "5555555555"] None in
  ContactRecord.edit_phone r "5555555555" "0987654321" 2%nat = Ok (r, 2%nat).
Proof. reflexivity. Qed.

(* ===================================================================== *)
(** ** Birthday *)

Lemma int_digits_raises_ValueError (s : string) (acc : Z) (e : exn) :
  int_digits acc s = Raise e -> e = ValueError.
Proof.
  revert acc. induction s as [|c s IH]; intros acc; simpl; [discriminate|].
  destruct (is_ascii_digit c); [apply IH|congruence].
Qed.

Lemma int_raises_ValueError (s : string) (e : exn) :
  int s = Raise e -> e = ValueError.
Proof.
  unfold int. destruct (lstrip s); [congruence|].
  apply int_digits_raises_ValueError.
Qed.

(** [strptime] raises nothing but [ValueError]. *)
Lemma strptime_raises_ValueError (s : string) (e : exn) :
  strptime_dmY s = Raise e -> e = ValueError.
Proof.
  unfold strptime_dmY, date_new.
  destruct (format_regex_match s) as [f|]; [|congruence].
  destruct (negb (String.eqb (unconverted f) EmptyString)); [congruence|].
  destruct (int (group_d f)) as [d|e1] eqn:Hd; simpl;
    [|intros H; inversion H; subst; eapply int_raises_ValueError; eauto].
  destruct (int (group_m f)) as [m|e2] eqn:Hm; simpl;
    [|intros H; inversion H; subst; eapply int_raises_ValueError; eauto].
  destruct (int (group_Y f)) as [Y|e3] eqn:HY; simpl;
    [|intros H; inversion H; subst; eapply int_raises_ValueError; eauto].
  destruct (_check_date_fields _ _ _); congruence.
Qed.

Lemma Birthday_init_parsed (s : string) (d : date) :
  strptime_dmY s = Ok d ->
  Birthday.__init__ s = Ok (Birthday.mk (Some d) (Some s)).
Proof.
  intros Hp. unfold Birthday.__init__. rewrite Hp. reflexivity.
Qed.

Lemma Birthday_init_unparsed (s : string) :
  is_ok (strptime_dmY s) = false ->
  Birthday.__init__ s = Ok (Birthday.mk None None).
Proof.
  intros Hp. unfold Birthday.__init__.
  destruct (strptime_dmY s) as [d|e] eqn:He; [discriminate Hp|].
  rewrite (strptime_raises_ValueError s e He). reflexivity.
Qed.

(** The constructor of [Birthday] returns an object for every text. *)
Lemma Birthday_init_total (s : string) :
  exists b, Birthday.__init__ s = Ok b.
Proof.
  destruct (strptime_dmY s) as [d|e] eqn:He.
  - rewrite (Birthday_init_parsed s d He). eauto.
  - rewrite Birthday_init_unparsed; [eauto|]. rewrite He. reflexivity.
Qed.

(** C2: what the code does where the claim promises a construction
    error. For every text that [strptime] does not parse under
    ["%d.%m.%Y"], constructing [Birthday] does not fail, unlike [Name] and
    [Phone], which raise [ValueError] on a value they refuse: the
    [ValueError] of the parse is caught and dropped, and the object comes
    back half built, with neither [date] nor [value] assigned, so that
    formatting it raises [AttributeError]. *)
Theorem Birthday_init_swallows_parse_error (s : string) :
  is_ok (strptime_dmY s) = false ->
  Birthday.__init__ s = Ok (Birthday.mk None None)
  /\ Birthday.__str__ (Birthday.mk None None) = Raise AttributeError.
Proof.
  intros Hp. split; [apply Birthday_init_unparsed; exact Hp|reflexivity].
Qed.

Lemma Birthday_init_swallows_parse_error_witness :
  Birthday.__init__ "24/08/1991" = Ok (Birthday.mk None None)
  /\ Birthday.__str__ (Birthday.mk None None) = Raise AttributeError.
Proof.
  apply (Birthday_init_swallows_parse_error "24/08/1991"). reflexivity.
Defined.

(** The same at the text ["hello"]: it does not parse, and the
    constructor returns an object instead of raising. *)
Lemma Birthday_init_accepts_unparsable :
  strptime_dmY "hello" = Raise ValueError
  /\ is_ok (Birthday.__init__ "hello") = true.
Proof. split; reflexivity. Qed.

(** C10. For every text that parses, the constructed [Birthday] formats
    back to that text. *)
Theorem Birthday_str_roundtrip (s : string) (d : date) :
  strptime_dmY s = Ok d ->
  exists b, Birthday.__init__ s = Ok b /\ Birthday.__str__ b = Ok s.
Proof.
  intros Hp. exists (Birthday.mk (Some d) (Some s)).
  split; [apply Birthday_init_parsed; exact Hp|reflexivity].
Qed.

Lemma Birthday_str_roundtrip_witness :
  exists b,
    Birthday.__init__ "24.08.1991" = Ok b
    /\ Birthday.__str__ b = Ok "24.08.1991".
Proof.
  apply (Birthday_str_roundtrip "24.08.1991" (mkDate 1991 8 24)). reflexivity.
Defined.

(** The format is laxer than two-digit fields: a day or month of one
    digit parses, and the text still comes back as it was given. *)
Example Birthday_one_digit_fields :
  Birthday.__init__ "1.1.2000"
  = Ok (Birthday.mk (Some (mkDate 2000 1 1)) (Some "1.1.2000")).
Proof. reflexivity. Qed.

(* ===================================================================== *)
(** ** AddressBook: records are keyed by their name *)

Lemma dict_setitem_keyed (book : AddressBook.t) (record : ContactRecord.t) :
  keyed_by_name book ->
  keyed_by_name
    (dict_setitem book (Name.value (ContactRecord.name record)) record).
Proof.
  unfold keyed_by_name.
  induction 1 as [|[k v] book Hkv Hrest IH]; simpl.
  - constructor; [reflexivity|constructor].
  - destruct (String.eqb_spec k (Name.value (ContactRecord.name record)))
      as [Heq|Hne].
    + constructor; [simpl; symmetry; exact Heq|exact Hrest].
    + constructor; [exact Hkv|exact IH].
Qed.

Lemma dict_delitem_keyed (book : AddressBook.t) (name : string) :
  keyed_by_name book -> keyed_by_name (dict_delitem book name).
Proof.
  unfold keyed_by_name.
  induction 1 as [|[k v] book Hkv Hrest IH]; simpl; [constructor|].
  destruct (String.eqb k name); [exact Hrest|].
  constructor; [exact Hkv|exact IH].
Qed.

Lemma exec_keyed (book : AddressBook.t) (o : op) :
  keyed_by_name book -> keyed_by_name (fst (exec book o)).
Proof.
  intros Hk. destruct o as [record|name|name|now]; simpl; try exact Hk.
  - apply dict_setitem_keyed. exact Hk.
  - unfold AddressBook.delete. destruct (dict_contains book name); [|exact Hk].
    apply dict_delitem_keyed. exact Hk.
Qed.

Lemma run_keyed (ops : list op) (book : AddressBook.t) :
  keyed_by_name book -> keyed_by_name (run ops book).
Proof.
  revert book. induction ops as [|o ops IH]; intros book Hk; simpl; [exact Hk|].
  apply IH. apply exec_keyed. exact Hk.
Qed.

(** C8. In every book reached from the empty one by calls of
    [add_record], [delete], [find] and [get_upcoming_birthdays], each
    record is stored under the text of its own name; and [add_record]
    stores the record under that key. *)
Theorem reachable_keyed_by_name (ops : list op) :
  keyed_by_name (run ops AddressBook.empty)
  /\ (forall book record,
        AddressBook.find (AddressBook.add_record book record)
                         (Name.value (ContactRecord.name record))
        = Some record).
Proof.
  split.
  - apply run_keyed. constructor.
  - intros book record. unfold AddressBook.find, AddressBook.add_record.
    generalize (Name.value (ContactRecord.name record)) as k. intros k.
    induction book as [|[k' v'] book IH];
      cbn [dict_setitem dict_contains dict_getitem].
    + rewrite String.eqb_refl. reflexivity.
    + destruct (String.eqb k' k) eqn:Hk;
        cbn [dict_contains dict_getitem]; rewrite Hk.
      * reflexivity.
      * exact IH.
Qed.

(* ===================================================================== *)
(** ** AddressBook: the upcoming birthdays *)

(** The loop body only appends: what it does to a list is what it does
    to the empty list, put after that list. *)
Lemma visit_acc (today next_week : datetime)
      (acc : list ContactRecord.t) (contact : ContactRecord.t) :
  AddressBook.visit today next_week acc contact
  = (l <- AddressBook.visit today next_week [] contact ;; Ok (acc ++ l)).
Proof.
  unfold AddressBook.visit.
  destruct (ContactRecord.birthday contact) as [b|]; simpl;
    [|rewrite app_nil_r; reflexivity].
  destruct (Birthday.date b) as [d0|]; simpl; [|reflexivity].
  destruct (Birthday.value b) as [v|]; simpl; [|reflexivity].
  destruct (strptime_dmY v) as [d|]; simpl; [|reflexivity].
  destruct (replace_year _ _) as [cb|]; simpl; [|reflexivity].
  destruct (datetime_le today cb && datetime_le cb next_week);
    [reflexivity|].
  destruct (datetime_lt next_week today && (dt_year cb =? dt_year today + 1));
    simpl; rewrite ?app_nil_r; reflexivity.
Qed.

Lemma visit_nil_cases (today next_week : datetime)
      (contact : ContactRecord.t) (l : list ContactRecord.t) :
  AddressBook.visit today next_week [] contact = Ok l ->
  l = [] \/ l = [contact].
Proof.
  unfold AddressBook.visit.
  destruct (ContactRecord.birthday contact) as [b|]; simpl;
    [|intros H; inversion H; auto].
  destruct (Birthday.date b) as [d0|]; simpl; [|discriminate].
  destruct (Birthday.value b) as [v|]; simpl; [|discriminate].
  destruct (strptime_dmY v) as [d|]; simpl; [|discriminate].
  destruct (replace_year _ _) as [cb|]; simpl; [|discriminate].
  destruct (datetime_le today cb && datetime_le cb next_week);
    [intros H; inversion H; auto|].
  destruct (datetime_lt next_week today && (dt_year cb =? dt_year today + 1));
    intros H; inversion H; auto.
Qed.

(** A record of the answer was appended by the loop body. *)
Lemma for_each_visit_in (today next_week : datetime)
      (xs acc l : list ContactRecord.t) (c : ContactRecord.t) :
  for_each (AddressBook.visit today next_week) xs acc = Ok l ->
  In c l ->
  In c acc \/ AddressBook.visit today next_week [] c = Ok [c].
Proof.
  revert acc. induction xs as [|x xs IH]; intros acc; simpl.
  - intros H Hin. inversion H; subst. auto.
  - rewrite visit_acc.
    destruct (AddressBook.visit today next_week [] x) as [l0|e] eqn:Hx;
      simpl; [|discriminate].
    intros H Hin. destruct (IH _ H Hin) as [Hacc|Hv]; [|auto].
    apply in_app_or in Hacc. destruct Hacc as [Hacc|Hl0]; [auto|].
    destruct (visit_nil_cases _ _ _ _ Hx) as [->| ->].
    + destruct Hl0.
    + destruct Hl0 as [<-|[]]. auto.
Qed.

(** The loop stops at the first contact that raises. *)
Lemma for_each_visit_first_failure (today next_week : datetime)
      (pre post acc : list ContactRecord.t) (r : ContactRecord.t) (e : exn) :
  Forall (fun c => passes today next_week c = true) pre ->
  AddressBook.visit today next_week [] r = Raise e ->
  for_each (AddressBook.visit today next_week) (pre ++ r :: post) acc = Raise e.
Proof.
  intros Hpre Hr. revert acc.
  induction Hpre as [|x pre Hx _ IH]; intros acc; simpl.
  - rewrite visit_acc, Hr. reflexivity.
  - rewrite visit_acc. unfold passes in Hx.
    destruct (AddressBook.visit today next_week [] x); [|discriminate Hx].
    simpl. apply IH.
Qed.

(** A contact that raises makes the loop raise, wherever it stands. *)
Lemma for_each_visit_any_failure (today next_week : datetime)
      (xs acc : list ContactRecord.t) (r : ContactRecord.t) (e : exn) :
  In r xs ->
  AddressBook.visit today next_week [] r = Raise e ->
  exists e', for_each (AddressBook.visit today next_week) xs acc = Raise e'.
Proof.
  intros Hin Hr. revert acc.
  induction xs as [|x xs IH]; intros acc; [destruct Hin|]. simpl.
  rewrite visit_acc.
  destruct (AddressBook.visit today next_week [] x) as [l0|e0] eqn:Hx; simpl.
  - destruct Hin as [->|Hin]; [congruence|]. apply IH. exact Hin.
  - eauto.
Qed.

Lemma get_upcoming_any_failure (book : AddressBook.t) (now : datetime)
      (r : ContactRecord.t) (e : exn) :
  In r (dict_values book) ->
  (forall next_week, AddressBook.visit now next_week [] r = Raise e) ->
  exists e', AddressBook.get_upcoming_birthdays book now = Raise e'.
Proof.
  intros Hin Hr. unfold AddressBook.get_upcoming_birthdays.
  destruct (add_days now 7) as [nw|e0]; simpl; [|eauto].
  apply (for_each_visit_any_failure now nw _ [] r e Hin (Hr nw)).
Qed.

Lemma get_upcoming_first_failure (book : AddressBook.t) (now next_week : datetime)
      (pre post : list ContactRecord.t) (r : ContactRecord.t) (e : exn) :
  add_days now 7 = Ok next_week ->
  dict_values book = pre ++ r :: post ->
  Forall (fun c => passes now next_week c = true) pre ->
  AddressBook.visit now next_week [] r = Raise e ->
  AddressBook.get_upcoming_birthdays book now = Raise e.
Proof.
  intros Hw Hv Hpre Hr. unfold AddressBook.get_upcoming_birthdays.
  rewrite Hw, Hv. simpl.
  apply for_each_visit_first_failure; assumption.
Qed.

(** A birthday whose object lacks its [date] stops the loop with
    [AttributeError]. *)
Lemma visit_unparsed (today next_week : datetime)
      (r : ContactRecord.t) (b : Birthday.t) :
  ContactRecord.birthday r = Some b ->
  Birthday.date b = None ->
  AddressBook.visit today next_week [] r = Raise AttributeError.
Proof.
  intros Hb Hd. unfold AddressBook.visit. rewrite Hb, Hd. reflexivity.
Qed.

(** 29 February does not exist in a year that is not a leap year. *)
Lemma replace_year_leap_day (t : datetime) (y : Z) :
  dt_month t = 2 -> dt_day t = 29 -> _is_leap y = false ->
  replace_year t y = Raise ValueError.
Proof.
  intros Hm Hd Hy. unfold replace_year, datetime_new.
  rewrite Hm, Hd. unfold _check_date_fields, _days_in_month.
  rewrite Hy. simpl (29 <=? _).
  rewrite andb_false_r. reflexivity.
Qed.

Lemma visit_leap_day (today next_week : datetime)
      (r : ContactRecord.t) (b : Birthday.t) (value : string) (y : Z) :
  ContactRecord.birthday r = Some b ->
  Birthday.__init__ value = Ok b ->
  strptime_dmY value = Ok (mkDate y 2 29) ->
  _is_leap (dt_year today) = false ->
  AddressBook.visit today next_week [] r = Raise ValueError.
Proof.
  intros Hb Hi Hp Hy.
  rewrite (Birthday_init_parsed value _ Hp) in Hi. inversion Hi; subst b.
  unfold AddressBook.visit. rewrite Hb. simpl. rewrite Hp. simpl.
  rewrite replace_year_leap_day; [reflexivity| reflexivity | reflexivity | exact Hy].
Qed.

(** C5: what the code does where the claim promises no error. With the
    current year not a leap year, a record whose birthday is a 29 February
    makes [get_upcoming_birthdays] fail; when the loop reaches the record
    (the window of seven days exists and the records before it pass), the
    failure is the [ValueError] of building 29 February in that year. *)
Theorem get_upcoming_leap_day_raises
        (book : AddressBook.t) (now : datetime)
        (r : ContactRecord.t) (b : Birthday.t) (value : string) (y : Z) :
  In r (dict_values book) ->
  ContactRecord.birthday r = Some b ->
  Birthday.__init__ value = Ok b ->
  strptime_dmY value = Ok (mkDate y 2 29) ->
  _is_leap (dt_year now) = false ->
  (exists e, AddressBook.get_upcoming_birthdays book now = Raise e)
  /\ (forall next_week pre post,
        add_days now 7 = Ok next_week ->
        dict_values book = pre ++ r :: post ->
        Forall (fun c => passes now next_week c = true) pre ->
        AddressBook.get_upcoming_birthdays book now = Raise ValueError).
Proof.
  intros Hin Hb Hi Hp Hy. split.
  - apply (get_upcoming_any_failure book now r ValueError Hin).
    intros nw. apply (visit_leap_day now nw r b value y Hb Hi Hp Hy).
  - intros nw pre post Hw Hv Hpre.
    apply (get_upcoming_first_failure book now nw pre post r ValueError Hw Hv Hpre).
    apply (visit_leap_day now nw r b value y Hb Hi Hp Hy).
Qed.

Lemma get_upcoming_leap_day_raises_witness :
  AddressBook.get_upcoming_birthdays
    (AddressBook.add_record AddressBook.empty leapling) noon_2023_08_20
  = Raise ValueError.
Proof.
  refine (proj2 (get_upcoming_leap_day_raises
                   (AddressBook.add_record AddressBook.empty leapling)
                   noon_2023_08_20 leapling
                   (Birthday.mk (Some (mkDate 2000 2 29)) (Some "29.02.2000"))
                   "29.02.2000" 2000 _ _ _ _ _)
                (mkDatetime 2023 8 27 12 0 0 0) [] [] _ _ _).
  - simpl. left. reflexivity.
  - reflexivity.
  - reflexivity.
  - reflexivity.
  - reflexivity.
  - reflexivity.
  - reflexivity.
  - constructor.
Defined.

(** C9, as amended. A record whose [Birthday] was built from text that
    does not parse makes [get_upcoming_birthdays] fail instead of being
    skipped; when the loop reaches the record (the window of seven days
    exists and the records before it pass), the failure is the
    [AttributeError] of reading the missing [date]. *)
Theorem get_upcoming_unparsed_birthday_raises
        (book : AddressBook.t) (now : datetime)
        (r : ContactRecord.t) (b : Birthday.t) (value : string) :
  In r (dict_values book) ->
  ContactRecord.birthday r = Some b ->
  Birthday.__init__ value = Ok b ->
  is_ok (strptime_dmY value) = false ->
  (exists e, AddressBook.get_upcoming_birthdays book now = Raise e)
  /\ (forall next_week pre post,
        add_days now 7 = Ok next_week ->
        dict_values book = pre ++ r :: post ->
        Forall (fun c => passes now next_week c = true) pre ->
        AddressBook.get_upcoming_birthdays book now = Raise AttributeError).
Proof.
  intros Hin Hb Hi Hp.
  rewrite (Birthday_init_unparsed value Hp) in Hi. inversion Hi; subst b.
  split.
  - apply (get_upcoming_any_failure book now r AttributeError Hin).
    intros nw. apply (visit_unparsed now nw r _ Hb). reflexivity.
  - intros nw pre post Hw Hv Hpre.
    apply (get_upcoming_first_failure book now nw pre post r AttributeError
                                      Hw Hv Hpre).
    apply (visit_unparsed now nw r _ Hb). reflexivity.
Qed.

(** A book that is reached from the empty one and on which the query is
    not total. *)
Lemma get_upcoming_unparsed_birthday_raises_witness :
  AddressBook.get_upcoming_birthdays
    (run [AddRecord bob_unparsed] AddressBook.empty) noon_2024_08_20
  = Raise AttributeError.
Proof.
  refine (proj2 (get_upcoming_unparsed_birthday_raises
                   (run [AddRecord bob_unparsed] AddressBook.empty)
                   noon_2024_08_20 bob_unparsed
                   (Birthday.mk None None) "abc" _ _ _ _)
                (mkDatetime 2024 8 27 12 0 0 0) [] [] _ _ _).
  - simpl. left. reflexivity.
  - reflexivity.
  - reflexivity.
  - reflexivity.
  - reflexivity.
  - reflexivity.
  - constructor.
Defined.

(** C9, counterexample. The second record holds a [Birthday] built from
    text that does not parse, yet the query fails with the [ValueError] of
    the leap day before it, not with an attribute error. *)
Lemma get_upcoming_unparsed_after_leap_day :
  let book :=
    AddressBook.add_record
      (AddressBook.add_record AddressBook.empty leapling) bob_unparsed in
  In bob_unparsed (dict_values book)
  /\ ContactRecord.birthday bob_unparsed = Some (Birthday.mk None None)
  /\ Birthday.__init__ "abc" = Ok (Birthday.mk None None)
  /\ is_ok (strptime_dmY "abc") = false
  /\ AddressBook.get_upcoming_birthdays book noon_2023_08_20 = Raise ValueError
  /\ AddressBook.get_upcoming_birthdays book noon_2023_08_20
     <> Raise AttributeError.
Proof.
  simpl. repeat split.
  - right. left. reflexivity.
  - discriminate.
Qed.

(** Once the day has begun, the current instant is after the midnight of
    the current day. *)
Lemma now_after_midnight (now : datetime) :
  datetime_valid now = true ->
  (hour now, minute now, second now, microsecond now) <> (0, 0, 0, 0) ->
  datetime_le now
    (mkDatetime (dt_year now) (dt_month now) (dt_day now) 0 0 0 0) = false.
Proof.
  unfold datetime_valid, _check_time_fields. intros Hv Hne.
  repeat (apply andb_true_iff in Hv; destruct Hv as [Hv ?]).
  repeat match goal with
         | H : (_ <=? _) = true |- _ => apply Z.leb_le in H
         end.
  unfold datetime_le, fields. simpl.
  rewrite !Z.compare_refl.
  destruct (Z.compare_spec (hour now) 0) as [Hh|Hh|Hh];
    [|lia|reflexivity].
  destruct (Z.compare_spec (minute now) 0) as [Hm|Hm|Hm];
    [|lia|reflexivity].
  destruct (Z.compare_spec (second now) 0) as [Hs|Hs|Hs];
    [|lia|reflexivity].
  destruct (Z.compare_spec (microsecond now) 0) as [Hu|Hu|Hu];
    [|lia|reflexivity].
  exfalso. apply Hne. rewrite Hh, Hm, Hs, Hu. reflexivity.
Qed.

(** The loop body leaves out a contact whose birthday is the current day,
    unless the day has only just begun. *)
Lemma visit_birthday_of_the_day (now next_week : datetime)
      (c : ContactRecord.t) (b : Birthday.t) (value : string) (y : Z) :
  datetime_valid now = true ->
  (hour now, minute now, second now, microsecond now) <> (0, 0, 0, 0) ->
  ContactRecord.birthday c = Some b ->
  Birthday.__init__ value = Ok b ->
  strptime_dmY value = Ok (mkDate y (dt_month now) (dt_day now)) ->
  AddressBook.visit now next_week [] c = Ok [].
Proof.
  intros Hv Hne Hb Hi Hp.
  rewrite (Birthday_init_parsed value _ Hp) in Hi. inversion Hi; subst b.
  unfold AddressBook.visit. rewrite Hb. simpl. rewrite Hp. simpl.
  unfold replace_year, datetime_new, combine_min_time. simpl.
  assert (Hd : _check_date_fields (dt_year now) (dt_month now) (dt_day now)
               = true).
  { unfold datetime_valid in Hv. apply andb_true_iff in Hv. tauto. }
  rewrite Hd. simpl.
  rewrite (now_after_midnight now Hv Hne). simpl.
  replace (dt_year now =? dt_year now + 1) with false
    by (symmetry; apply Z.eqb_neq; lia).
  rewrite andb_false_r. reflexivity.
Qed.

(** C3: what the code does at the lower end of the window. The reference
    of the code is the current instant, time of day included, and the
    candidate is a midnight: whenever the query returns and the day has
    begun, a record whose birthday is the current day is not in the
    answer, although its candidate date is the reference date. *)
Theorem get_upcoming_excludes_birthday_of_the_day
        (book : AddressBook.t) (now : datetime) (l : list ContactRecord.t)
        (c : ContactRecord.t) (b : Birthday.t) (value : string) (y : Z) :
  datetime_valid now = true ->
  (hour now, minute now, second now, microsecond now) <> (0, 0, 0, 0) ->
  AddressBook.get_upcoming_birthdays book now = Ok l ->
  ContactRecord.birthday c = Some b ->
  Birthday.__init__ value = Ok b ->
  strptime_dmY value = Ok (mkDate y (dt_month now) (dt_day now)) ->
  ~ In c l.
Proof.
  intros Hv Hne Hl Hb Hi Hp Hin.
  unfold AddressBook.get_upcoming_birthdays in Hl.
  destruct (add_days now 7) as [nw|e]; simpl in Hl; [|discriminate Hl].
  destruct (for_each_visit_in now nw _ [] l c Hl Hin) as [[]|Hc].
  rewrite (visit_birthday_of_the_day now nw c b value y Hv Hne Hb Hi Hp) in Hc.
  discriminate Hc.
Qed.

Lemma get_upcoming_excludes_birthday_of_the_day_witness :
  AddressBook.get_upcoming_birthdays
    (AddressBook.add_record AddressBook.empty alice_20_08) noon_2024_08_20
  = Ok []
  /\ ~ In alice_20_08 [].
Proof.
  split; [reflexivity|].
  apply (get_upcoming_excludes_birthday_of_the_day
           (AddressBook.add_record AddressBook.empty alice_20_08)
           noon_2024_08_20 [] alice_20_08
           (Birthday.mk (Some (mkDate 1991 8 20)) (Some "20.08.1991"))
           "20.08.1991" 1991).
  - reflexivity.
  - discriminate.
  - reflexivity.
  - reflexivity.
  - reflexivity.
  - reflexivity.
Defined.

(** The same book at the very first instant of the day: the record is in
    the answer. *)
Example get_upcoming_at_midnight :
  AddressBook.get_upcoming_birthdays
    (AddressBook.add_record AddressBook.empty alice_20_08) midnight_2024_08_20
  = Ok [alice_20_08].
Proof. reflexivity. Qed.

(** The scenario of the specification, at every time of the day
    2024-08-20: the birthday 24.08.1991 is in the answer. *)
Example get_upcoming_scenario_alice (h mi s us : Z) :
  AddressBook.get_upcoming_birthdays
    (AddressBook.add_record AddressBook.empty alice_24_08)
    (mkDatetime 2024 8 20 h mi s us)
  = Ok [alice_24_08].
Proof. reflexivity. Qed.

(** The upper end of the window is inclusive: seven days ahead is in. *)
Example get_upcoming_seventh_day :
  let carol := with_birthday "Carol" "27.08.1980" (mkDate 1980 8 27) in
  AddressBook.get_upcoming_birthdays
    (AddressBook.add_record AddressBook.empty carol) noon_2024_08_20
  = Ok [carol].
Proof. reflexivity. Qed.

(* ===================================================================== *)
(** ** What the query returns when it returns *)

Lemma replace_year_year (t cb : datetime) (y : Z) :
  replace_year t y = Ok cb -> dt_year cb = y.
Proof.
  unfold replace_year, datetime_new.
  destruct (_ && _); [|discriminate].
  intros H. inversion H. reflexivity.
Qed.

(** The second test of the loop body never holds: the candidate is in the
    year of [today], not in the next one. A contact that the loop gets
    past is appended exactly when its candidate is in the window. *)
Lemma visit_window (today next_week : datetime)
      (acc : list ContactRecord.t) (c : ContactRecord.t) :
  passes today next_week c = true ->
  AddressBook.visit today next_week acc c
  = Ok (if in_window today next_week c then acc ++ [c] else acc).
Proof.
  unfold passes, in_window, candidate, AddressBook.visit.
  destruct (ContactRecord.birthday c) as [b|]; simpl; [|reflexivity].
  destruct (Birthday.date b) as [d0|]; simpl; [|discriminate].
  destruct (Birthday.value b) as [v|]; simpl; [|discriminate].
  destruct (strptime_dmY v) as [d|]; simpl; [|discriminate].
  destruct (replace_year _ _) as [cb|] eqn:Hcb; simpl; [|discriminate].
  intros _. apply replace_year_year in Hcb.
  destruct (datetime_le today cb && datetime_le cb next_week); [reflexivity|].
  replace (dt_year cb =? dt_year today + 1) with false
    by (symmetry; apply Z.eqb_neq; lia).
  rewrite andb_false_r. reflexivity.
Qed.

Lemma for_each_visit_filter (today next_week : datetime)
      (xs acc : list ContactRecord.t) :
  Forall (fun c => passes today next_week c = true) xs ->
  for_each (AddressBook.visit today next_week) xs acc
  = Ok (acc ++ filter (in_window today next_week) xs).
Proof.
  intros Hxs. revert acc.
  induction Hxs as [|x xs Hx _ IH]; intros acc; simpl.
  - rewrite app_nil_r. reflexivity.
  - rewrite (visit_window today next_week acc x Hx). simpl.
    destruct (in_window today next_week x).
    + rewrite IH, <- app_assoc. reflexivity.
    + apply IH.
Qed.

(** On a book none of whose records raises, the query returns, in the
    order of the dictionary, the records whose candidate midnight lies
    between the current instant and the instant seven days later, both
    ends included. *)
Lemma get_upcoming_window (book : AddressBook.t) (now next_week : datetime) :
  add_days now 7 = Ok next_week ->
  Forall (fun c => passes now next_week c = true) (dict_values book) ->
  AddressBook.get_upcoming_birthdays book now
  = Ok (filter (in_window now next_week) (dict_values book)).
Proof.
  intros Hw Hall. unfold AddressBook.get_upcoming_birthdays.
  rewrite Hw. simpl.
  apply (for_each_visit_filter now next_week (dict_values book) [] Hall).
Qed.

(* ===================================================================== *)
(** ** Record: more on the phone list and the birthday *)

Lemma find_in_app_last (ps : list Phone.t) (q : Phone.t) :
  ContactRecord.find_in (ps ++ [q]) (Phone.value q) = Some (Phone.value q).
Proof.
  induction ps as [|p ps IH]; simpl.
  - rewrite String.eqb_refl. reflexivity.
  - destruct (String.eqb_spec (Phone.value p) (Phone.value q)) as [Heq|_].
    + rewrite Heq. reflexivity.
    + exact IH.
Qed.

(** X1. [add_phone] with a valid phone puts one new phone of that text
    after the phones that were there, whether or not the text was stored
    already, touches neither name nor birthday, and [find_phone] finds
    the text afterwards. *)
Theorem add_phone_then_find_phone
        (r : ContactRecord.t) (phone : string) (h : heap) :
  len phone = 10 ->
  str_isdigit phone = true ->
  exists r' h',
    ContactRecord.add_phone r phone h = Ok (r', h')
    /\ phone_values r' = phone_values r ++ [phone]
    /\ ContactRecord.name r' = ContactRecord.name r
    /\ ContactRecord.birthday r' = ContactRecord.birthday r
    /\ ContactRecord.find_phone r' phone = Some phone.
Proof.
  intros Hl Hd.
  assert (Hv : (len phone =? 10) && str_isdigit phone = true).
  { rewrite Hd. apply Z.eqb_eq in Hl. rewrite Hl. reflexivity. }
  unfold ContactRecord.add_phone, mbind, ret.
  rewrite (Phone_init_accepts phone h Hv).
  eexists. eexists. split; [reflexivity|].
  unfold phone_values, ContactRecord.find_phone. simpl.
  rewrite map_app. simpl.
  repeat split.
  apply (find_in_app_last (ContactRecord.phones r) (Phone.mk h phone)).
Qed.

(** The phone is there twice after it is added twice. *)
Lemma add_phone_then_find_phone_witness :
  exists r' h',
    ContactRecord.add_phone ann "1234567890" 1%nat = Ok (r', h')
    /\ phone_values r' = ["1234567890"; "1234567890"]
    /\ ContactRecord.name r' = Name.mk "Ann"
    /\ ContactRecord.birthday r' = None
    /\ ContactRecord.find_phone r' "1234567890" = Some "1234567890".
Proof.
  apply (add_phone_then_find_phone ann "1234567890" 1%nat); reflexivity.
Defined.

(** X2. [find_phone] answers with the text it was asked for exactly when
    some stored phone has that text, and with [None] otherwise; it never
    answers with another text. *)
Theorem find_phone_iff_stored (r : ContactRecord.t) (phone : string) :
  (ContactRecord.find_phone r phone = Some phone <-> In phone (phone_values r))
  /\ (ContactRecord.find_phone r phone = None <-> ~ In phone (phone_values r))
  /\ (forall v, ContactRecord.find_phone r phone = Some v -> v = phone).
Proof.
  unfold ContactRecord.find_phone, phone_values.
  induction (ContactRecord.phones r) as [|p ps IH]; simpl.
  - repeat split; try discriminate; try tauto.
  - destruct IH as [IH1 [IH2 IH3]].
    destruct (String.eqb_spec (Phone.value p) phone) as [Heq|Hne].
    + repeat split; try discriminate; try tauto.
      * intros _. rewrite Heq. reflexivity.
      * intros v Hv. inversion Hv. exact Heq.
    + repeat split.
      * intros H. right. apply IH1. exact H.
      * intros [H|H]; [contradiction|apply IH1; exact H].
      * intros H [H'|H']; [contradiction|]. apply IH2 in H. contradiction.
      * intros H. apply IH2. intros H'. apply H. right. exact H'.
      * exact IH3.
Qed.

(** X3. [edit_phone] looks at index 0 only: when the first phone has
    another text than [old], the record is left as it was, also when a
    later phone has the text [old]. *)
Theorem edit_phone_only_index_0
        (r : ContactRecord.t) (p0 : Phone.t) (later : list Phone.t)
        (old_phone new_phone : string) (h : heap) :
  ContactRecord.phones r = p0 :: later ->
  Phone.value p0 <> old_phone ->
  ContactRecord.edit_phone r old_phone new_phone h = Ok (r, h).
Proof.
  intros Hps Hne.
  unfold ContactRecord.edit_phone. rewrite Hps. simpl.
  unfold ContactRecord.edit_phone_at, mbind, lift, list_getitem.
  rewrite Hps. simpl.
  destruct (String.eqb_spec (Phone.value p0) old_phone) as [Heq|_];
    [contradiction|reflexivity].
Qed.

Lemma edit_phone_only_index_0_witness :
  let r := ContactRecord.mk (Name.mk "Ann")
             [Phone.mk 0 "1234567890"; Phone.mk 1 "5555555555"] None in
  ContactRecord.find_phone r "5555555555" = Some "5555555555"
  /\ ContactRecord.edit_phone r "5555555555" "0987654321" 2%nat = Ok (r, 2%nat).
Proof.
  split; [reflexivity|].
  apply (edit_phone_only_index_0 _ (Phone.mk 0 "1234567890")
                                 [Phone.mk 1 "5555555555"]).
  - reflexivity.
  - discriminate.
Defined.

(** X4. When the first phone has the text [old] and [new] is not a valid
    phone, [edit_phone] raises [ValueError]. *)
Theorem edit_phone_invalid_new_raises
        (r : ContactRecord.t) (p0 : Phone.t) (later : list Phone.t)
        (old_phone new_phone : string) (h : heap) :
  ContactRecord.phones r = p0 :: later ->
  Phone.value p0 = old_phone ->
  (len new_phone =? 10) && str_isdigit new_phone = false ->
  ContactRecord.edit_phone r old_phone new_phone h = Raise ValueError.
Proof.
  intros Hps Hold Hv.
  unfold ContactRecord.edit_phone. rewrite Hps. simpl.
  unfold ContactRecord.edit_phone_at, mbind, lift, list_getitem.
  rewrite Hps. simpl.
  rewrite Hold, String.eqb_refl.
  rewrite (Phone_init_refuses new_phone h Hv). reflexivity.
Qed.

Lemma edit_phone_invalid_new_raises_witness :
  ContactRecord.edit_phone ann "1234567890" "12345" 1%nat = Raise ValueError.
Proof.
  apply (edit_phone_invalid_new_raises ann (Phone.mk 0 "1234567890") []);
    reflexivity.
Defined.

(** X5. Whenever [edit_phone] returns, the record has as many phones as
    before, the phones after index 0 are the same objects, name and
    birthday are untouched, and the text at index 0 is the old one or
    [new]. *)
Theorem edit_phone_keeps_shape
        (r r' : ContactRecord.t) (old_phone new_phone : string) (h h' : heap) :
  ContactRecord.edit_phone r old_phone new_phone h = Ok (r', h') ->
  length (ContactRecord.phones r') = length (ContactRecord.phones r)
  /\ tl (ContactRecord.phones r') = tl (ContactRecord.phones r)
  /\ ContactRecord.name r' = ContactRecord.name r
  /\ ContactRecord.birthday r' = ContactRecord.birthday r
  /\ (hd_error (phone_values r') = hd_error (phone_values r)
      \/ hd_error (phone_values r') = Some new_phone).
Proof.
  unfold ContactRecord.edit_phone, phone_values.
  destruct (ContactRecord.phones r) as [|p0 later] eqn:Hps; simpl.
  - unfold ret. intros H. inversion H; subst. rewrite Hps. simpl. tauto.
  - unfold ContactRecord.edit_phone_at, mbind, lift, list_getitem.
    rewrite Hps. simpl.
    destruct (String.eqb (Phone.value p0) old_phone).
    + destruct ((len new_phone =? 10) && str_isdigit new_phone) eqn:Hv.
      * rewrite (Phone_init_accepts new_phone h Hv). unfold ret.
        intros H. inversion H; subst. simpl. tauto.
      * rewrite (Phone_init_refuses new_phone h Hv). discriminate.
    + unfold ret. intros H. inversion H; subst. rewrite Hps. simpl. tauto.
Qed.

Lemma edit_phone_keeps_shape_witness :
  let r' := ContactRecord.mk (Name.mk "Ann") [Phone.mk 1 "0987654321"] None in
  length (ContactRecord.phones r') = length (ContactRecord.phones ann)
  /\ tl (ContactRecord.phones r') = tl (ContactRecord.phones ann)
  /\ ContactRecord.name r' = ContactRecord.name ann
  /\ ContactRecord.birthday r' = ContactRecord.birthday ann
  /\ (hd_error (phone_values r') = hd_error (phone_values ann)
      \/ hd_error (phone_values r') = Some "0987654321").
Proof.
  apply (edit_phone_keeps_shape ann _ "1234567890" "0987654321" 1%nat 2%nat).
  reflexivity.
Defined.

(** X6. [add_birthday] never fails, keeps name and phones, and the last
    call wins: what an earlier call stored is gone, also when the later
    text does not parse. *)
Theorem add_birthday_last_wins (r : ContactRecord.t) (first second : string) :
  (r1 <- ContactRecord.add_birthday r first ;;
   ContactRecord.add_birthday r1 second)
  = ContactRecord.add_birthday r second
  /\ exists b,
      Birthday.__init__ second = Ok b
      /\ ContactRecord.add_birthday r second
         = Ok (ContactRecord.mk (ContactRecord.name r)
                                (ContactRecord.phones r) (Some b)).
Proof.
  unfold ContactRecord.add_birthday.
  destruct (Birthday_init_total first) as [b1 Hb1].
  destruct (Birthday_init_total second) as [b2 Hb2].
  rewrite Hb1, Hb2. simpl.
  split; [reflexivity|]. exists b2. split; reflexivity.
Qed.

(* ===================================================================== *)
(** ** AddressBook: add, find and delete together *)

Lemma dict_contains_keys {V : Type} (d : dict V) (k : string) :
  dict_contains d k = true <-> In k (dict_keys d).
Proof.
  induction d as [|[k' v] d IH]; simpl.
  - split; [discriminate|tauto].
  - destruct (String.eqb_spec k' k) as [Heq|Hne]; simpl.
    + split; auto.
    + rewrite IH. split; [auto|]. intros [H|H]; [contradiction|exact H].
Qed.

Lemma dict_contains_false_keys {V : Type} (d : dict V) (k : string) :
  dict_contains d k = false <-> ~ In k (dict_keys d).
Proof.
  rewrite <- dict_contains_keys.
  destruct (dict_contains d k); split; congruence.
Qed.

Lemma dict_getitem_absent {V : Type} (d : dict V) (k : string) :
  dict_contains d k = false -> dict_getitem d k = None.
Proof.
  induction d as [|[k' v] d IH]; simpl; [reflexivity|].
  destruct (String.eqb k' k); simpl; [discriminate|exact IH].
Qed.

Lemma dict_getitem_present {V : Type} (d : dict V) (k : string) :
  dict_contains d k = true -> exists v, dict_getitem d k = Some v.
Proof.
  induction d as [|[k' v] d IH]; simpl; [discriminate|].
  destruct (String.eqb k' k); simpl; [eauto|exact IH].
Qed.

Lemma dict_keys_setitem {V : Type} (d : dict V) (k : string) (v : V) :
  dict_keys (dict_setitem d k v)
  = if dict_contains d k then dict_keys d else dict_keys d ++ [k].
Proof.
  induction d as [|[k' v'] d IH]; simpl; [reflexivity|].
  destruct (String.eqb k' k); simpl; [reflexivity|].
  rewrite IH. destruct (dict_contains d k); reflexivity.
Qed.

Lemma dict_keys_delitem_incl {V : Type} (d : dict V) (k k0 : string) :
  In k0 (dict_keys (dict_delitem d k)) -> In k0 (dict_keys d).
Proof.
  induction d as [|[k' v'] d IH]; simpl; [tauto|].
  destruct (String.eqb k' k); simpl; [auto|].
  intros [H|H]; auto.
Qed.

Lemma unique_keys_setitem {V : Type} (d : dict V) (k : string) (v : V) :
  unique_keys d -> unique_keys (dict_setitem d k v).
Proof.
  unfold unique_keys. rewrite dict_keys_setitem. intros Hu.
  destruct (dict_contains d k) eqn:Hc; [exact Hu|].
  apply dict_contains_false_keys in Hc.
  apply NoDup_app; [exact Hu|constructor; [tauto|constructor]|].
  intros a Ha [<-|[]]. contradiction.
Qed.

Lemma unique_keys_delitem {V : Type} (d : dict V) (k : string) :
  unique_keys d -> unique_keys (dict_delitem d k).
Proof.
  unfold unique_keys.
  induction d as [|[k' v'] d IH]; simpl; [auto|].
  intros Hu. inversion Hu as [|? ? Hnin Hd]; subst.
  destruct (String.eqb k' k); simpl; [exact Hd|].
  constructor; [|apply IH; exact Hd].
  intros Hin. apply Hnin. apply (dict_keys_delitem_incl d k k' Hin).
Qed.

Lemma dict_contains_delitem {V : Type} (d : dict V) (k : string) :
  unique_keys d -> dict_contains (dict_delitem d k) k = false.
Proof.
  unfold unique_keys.
  induction d as [|[k' v'] d IH]; simpl; [reflexivity|].
  intros Hu. inversion Hu as [|? ? Hnin Hd]; subst.
  destruct (String.eqb_spec k' k) as [Heq|Hne]; simpl.
  - subst k'. apply dict_contains_false_keys. exact Hnin.
  - destruct (String.eqb_spec k' k) as [Heq|_]; [contradiction|].
    simpl. apply IH. exact Hd.
Qed.

(** The books that the operations reach are dictionaries: no key
    twice. *)
Lemma run_unique_keys (ops : list op) (book : AddressBook.t) :
  unique_keys book -> unique_keys (run ops book).
Proof.
  revert book. induction ops as [|o ops IH]; intros book Hu; simpl; [exact Hu|].
  apply IH. destruct o as [record|name|name|now]; simpl; try exact Hu.
  - apply unique_keys_setitem. exact Hu.
  - unfold AddressBook.delete. destruct (dict_contains book name); [|exact Hu].
    apply unique_keys_delitem. exact Hu.
Qed.

Lemma empty_unique_keys : unique_keys AddressBook.empty.
Proof. constructor. Qed.

(** X7. In every book reached from the empty one, after [delete(name)]
    the name is not found any more, and deleting it once more changes
    nothing. *)
Theorem find_after_delete (ops : list op) (name : string) :
  let book := run ops AddressBook.empty in
  AddressBook.find (AddressBook.delete book name) name = None
  /\ AddressBook.delete (AddressBook.delete book name) name
     = AddressBook.delete book name.
Proof.
  intros book.
  assert (Hu : unique_keys book) by (apply run_unique_keys, empty_unique_keys).
  assert (Hc : dict_contains (AddressBook.delete book name) name = false).
  { unfold AddressBook.delete. destruct (dict_contains book name) eqn:Hb.
    - apply dict_contains_delitem. exact Hu.
    - exact Hb. }
  split.
  - unfold AddressBook.find. rewrite Hc. reflexivity.
  - unfold AddressBook.delete at 1. rewrite Hc. reflexivity.
Qed.

(** [del d[k]] takes out the first entry of the key, which is the entry
    that [d[k]] reads, and nothing else. *)
Lemma dict_delitem_split {V : Type} (d : dict V) (k : string) (v : V) :
  dict_getitem d k = Some v ->
  exists pre post,
    d = pre ++ (k, v) :: post
    /\ ~ In k (dict_keys pre)
    /\ dict_delitem d k = pre ++ post.
Proof.
  induction d as [|[k' v'] d IH]; simpl; [discriminate|].
  destruct (String.eqb_spec k' k) as [Heq|Hne].
  - intros Hv. inversion Hv; subst. exists [], d.
    split; [reflexivity|]. split; [intros []|reflexivity].
  - intros Hv. destruct (IH Hv) as [pre [post [Hd [Hnin Hdel]]]].
    exists ((k', v') :: pre), post. simpl.
    split; [rewrite Hd; reflexivity|].
    split; [intros [H|H]; [contradiction|exact (Hnin H)]|].
    rewrite Hdel. reflexivity.
Qed.

(** X8. [delete] of a name that [find] does not find is no error and
    leaves the book as it is; of a name that [find] finds, it takes out
    the entry of that name, the one whose record [find] returns, and
    leaves every other entry where it was. *)
Theorem delete_absent_or_present (book : AddressBook.t) (name : string) :
  (AddressBook.find book name = None -> AddressBook.delete book name = book)
  /\ (forall r, AddressBook.find book name = Some r ->
        exists pre post,
          book = pre ++ (name, r) :: post
          /\ ~ In name (dict_keys pre)
          /\ AddressBook.delete book name = pre ++ post).
Proof.
  unfold AddressBook.find, AddressBook.delete.
  destruct (dict_contains book name) eqn:Hc.
  - split.
    + destruct (dict_getitem_present book name Hc) as [v Hv].
      rewrite Hv. discriminate.
    + intros r Hr. apply dict_delitem_split. exact Hr.
  - split; [reflexivity|discriminate].
Qed.

Lemma delete_absent_or_present_witness :
  let book :=
    AddressBook.add_record
      (AddressBook.add_record AddressBook.empty ann) bob_unparsed in
  AddressBook.delete book "Carl" = book
  /\ exists pre post,
      book = pre ++ ("Ann", ann) :: post
      /\ ~ In "Ann" (dict_keys pre)
      /\ AddressBook.delete book "Ann" = pre ++ post.
Proof.
  split.
  - apply (proj1 (delete_absent_or_present
                    (AddressBook.add_record
                       (AddressBook.add_record AddressBook.empty ann)
                       bob_unparsed) "Carl")).
    reflexivity.
  - apply (proj2 (delete_absent_or_present
                    (AddressBook.add_record
                       (AddressBook.add_record AddressBook.empty ann)
                       bob_unparsed) "Ann") ann).
    reflexivity.
Defined.

(** Deleting the first of two names leaves the second. *)
Example delete_first_of_two :
  AddressBook.delete
    (AddressBook.add_record
       (AddressBook.add_record AddressBook.empty ann) bob_unparsed) "Ann"
  = [("Bob", bob_unparsed)].
Proof. reflexivity. Qed.

Lemma dict_setitem_other {V : Type} (d : dict V) (k n : string) (v : V) :
  n <> k ->
  dict_contains (dict_setitem d k v) n = dict_contains d n
  /\ dict_getitem (dict_setitem d k v) n = dict_getitem d n.
Proof.
  intros Hne.
  induction d as [|[k' v'] d [IH1 IH2]]; simpl.
  - destruct (String.eqb_spec k n) as [Heq|_]; [congruence|]. auto.
  - destruct (String.eqb_spec k' k) as [Heq|Hk]; simpl.
    + subst k'. destruct (String.eqb_spec k n) as [Heq|_]; [congruence|]. auto.
    + rewrite IH1, IH2. auto.
Qed.

Lemma dict_delitem_other {V : Type} (d : dict V) (k n : string) :
  n <> k ->
  dict_contains (dict_delitem d k) n = dict_contains d n
  /\ dict_getitem (dict_delitem d k) n = dict_getitem d n.
Proof.
  intros Hne.
  induction d as [|[k' v'] d [IH1 IH2]]; simpl; [auto|].
  destruct (String.eqb_spec k' k) as [Heq|Hk]; simpl.
  - subst k'. destruct (String.eqb_spec k n) as [Heq|_]; [congruence|]. auto.
  - rewrite IH1, IH2. auto.
Qed.

(** X9. [add_record] and [delete] touch one name only: what [find] gives
    for any other name is the same before and after. *)
Theorem find_other_name_unchanged
        (book : AddressBook.t) (record : ContactRecord.t) (deleted n : string) :
  n <> Name.value (ContactRecord.name record) ->
  n <> deleted ->
  AddressBook.find (AddressBook.add_record book record) n
  = AddressBook.find book n
  /\ AddressBook.find (AddressBook.delete book deleted) n
     = AddressBook.find book n.
Proof.
  intros Hr Hd. unfold AddressBook.find, AddressBook.add_record, AddressBook.delete.
  split.
  - destruct (dict_setitem_other book _ n record Hr) as [H1 H2].
    rewrite H1, H2. reflexivity.
  - destruct (dict_contains book deleted); [|reflexivity].
    destruct (dict_delitem_other book deleted n Hd) as [H1 H2].
    rewrite H1, H2. reflexivity.
Qed.

Lemma find_other_name_unchanged_witness :
  let book := AddressBook.add_record AddressBook.empty ann in
  AddressBook.find (AddressBook.add_record book bob_unparsed) "Ann"
  = AddressBook.find book "Ann"
  /\ AddressBook.find (AddressBook.delete book "Carl") "Ann"
     = AddressBook.find book "Ann".
Proof.
  apply (find_other_name_unchanged
           (AddressBook.add_record AddressBook.empty ann)
           bob_unparsed "Carl" "Ann"); discriminate.
Defined.

(** X10. The order of the book is the order in which the names came in:
    [add_record] under a name that is there keeps every name in its
    place, and under a new name puts it last. *)
Theorem add_record_keeps_order (book : AddressBook.t) (record : ContactRecord.t) :
  dict_keys (AddressBook.add_record book record)
  = if dict_contains book (Name.value (ContactRecord.name record))
    then dict_keys book
    else dict_keys book ++ [Name.value (ContactRecord.name record)].
Proof.
  unfold AddressBook.add_record.
  generalize (Name.value (ContactRecord.name record)) as k. intros k.
  induction book as [|[k' r'] book IH]; simpl; [reflexivity|].
  destruct (String.eqb k' k); simpl; [reflexivity|].
  rewrite IH. destruct (dict_contains book k); reflexivity.
Qed.

(* ===================================================================== *)
(** ** AddressBook: when the query returns, and what *)

Lemma for_each_visit_ok_passes (today next_week : datetime)
      (xs acc l : list ContactRecord.t) :
  for_each (AddressBook.visit today next_week) xs acc = Ok l ->
  Forall (fun c => passes today next_week c = true) xs.
Proof.
  revert acc. induction xs as [|x xs IH]; intros acc; simpl; [constructor|].
  rewrite visit_acc.
  destruct (AddressBook.visit today next_week [] x) as [l0|e] eqn:Hx; simpl;
    [|discriminate].
  intros H. constructor; [unfold passes; rewrite Hx; reflexivity|].
  apply (IH _ H).
Qed.

(** The answer of a query that returns is the filter of the book by the
    window. *)
Lemma get_upcoming_ok_filter
      (book : AddressBook.t) (now : datetime) (l : list ContactRecord.t) :
  AddressBook.get_upcoming_birthdays book now = Ok l ->
  exists next_week,
    add_days now 7 = Ok next_week
    /\ l = filter (in_window now next_week) (dict_values book).
Proof.
  unfold AddressBook.get_upcoming_birthdays.
  destruct (add_days now 7) as [nw|e] eqn:Hw; simpl; [|discriminate].
  intros Hl. exists nw. split; [reflexivity|].
  pose proof (for_each_visit_ok_passes now nw _ _ _ Hl) as Hall.
  rewrite (for_each_visit_filter now nw _ [] Hall) in Hl.
  inversion Hl. reflexivity.
Qed.

(** X11. Whenever the query returns, its answer is, in the order of the
    book, exactly the records whose candidate (the midnight of the
    birthday, moved to the current year) lies between the current instant
    and the instant seven days later, both ends included; the second test
    of the loop adds nothing. *)
Theorem get_upcoming_returns_window
        (book : AddressBook.t) (now : datetime) (l : list ContactRecord.t) :
  AddressBook.get_upcoming_birthdays book now = Ok l ->
  exists next_week,
    add_days now 7 = Ok next_week
    /\ l = filter (in_window now next_week) (dict_values book).
Proof.
  unfold AddressBook.get_upcoming_birthdays.
  destruct (add_days now 7) as [nw|e] eqn:Hw; simpl; [|discriminate].
  intros Hl. exists nw. split; [reflexivity|].
  pose proof (for_each_visit_ok_passes now nw _ _ _ Hl) as Hall.
  rewrite (for_each_visit_filter now nw _ [] Hall) in Hl.
  inversion Hl. reflexivity.
Qed.

Lemma get_upcoming_returns_window_witness :
  exists next_week,
    add_days noon_2024_08_20 7 = Ok next_week
    /\ [alice_24_08]
       = filter (in_window noon_2024_08_20 next_week)
                (dict_values
                   (AddressBook.add_record
                      (AddressBook.add_record AddressBook.empty ann)
                      alice_24_08)).
Proof.
  apply (get_upcoming_returns_window
           (AddressBook.add_record
              (AddressBook.add_record AddressBook.empty ann) alice_24_08)
           noon_2024_08_20 [alice_24_08]).
  reflexivity.
Defined.

Lemma datetime_le_month_day (a b : datetime) :
  dt_year a = dt_year b ->
  datetime_le a b = true ->
  dt_month a < dt_month b
  \/ (dt_month a = dt_month b /\ dt_day a <= dt_day b).
Proof.
  unfold datetime_le, fields. simpl. intros Hy. rewrite Hy, Z.compare_refl.
  destruct (Z.compare_spec (dt_month a) (dt_month b)) as [Hm|Hm|Hm];
    [|left; exact Hm|discriminate].
  destruct (Z.compare_spec (dt_day a) (dt_day b)) as [Hd|Hd|Hd];
    [right; lia|right; lia|discriminate].
Qed.

Lemma candidate_fields (today cb : datetime) (c : ContactRecord.t)
      (b : Birthday.t) (value : string) (d : date) :
  ContactRecord.birthday c = Some b ->
  Birthday.value b = Some value ->
  strptime_dmY value = Ok d ->
  candidate today c = Some cb ->
  cb = mkDatetime (dt_year today) (month d) (day d) 0 0 0 0.
Proof.
  intros Hb Hv Hp. unfold candidate. rewrite Hb, Hv, Hp.
  unfold replace_year, datetime_new, combine_min_time. simpl.
  destruct (_ && _); [|discriminate].
  intros H. inversion H. reflexivity.
Qed.

(** X12. The query does not wrap around the end of the year: a record in
    the answer has its birthday, as month and day, not before the month
    and day of the current date. A birthday early in January is never
    upcoming late in December. *)
Theorem get_upcoming_no_year_wrap
        (book : AddressBook.t) (now : datetime) (l : list ContactRecord.t)
        (c : ContactRecord.t) (b : Birthday.t) (value : string) (d : date) :
  AddressBook.get_upcoming_birthdays book now = Ok l ->
  In c l ->
  ContactRecord.birthday c = Some b ->
  Birthday.value b = Some value ->
  strptime_dmY value = Ok d ->
  dt_month now < month d
  \/ (dt_month now = month d /\ dt_day now <= day d).
Proof.
  intros Hl Hin Hb Hv Hp.
  destruct (get_upcoming_ok_filter book now l Hl) as [nw [_ ->]].
  apply filter_In in Hin. destruct Hin as [_ Hw].
  unfold in_window in Hw.
  destruct (candidate now c) as [cb|] eqn:Hc; [|discriminate].
  apply andb_true_iff in Hw. destruct Hw as [Hw _].
  rewrite (candidate_fields now cb c b value d Hb Hv Hp Hc) in Hw.
  apply datetime_le_month_day in Hw; [exact Hw|reflexivity].
Qed.

Lemma get_upcoming_no_year_wrap_witness :
  dt_month noon_2024_08_20 < 8
  \/ (dt_month noon_2024_08_20 = 8 /\ dt_day noon_2024_08_20 <= 24).
Proof.
  apply (get_upcoming_no_year_wrap
           (AddressBook.add_record AddressBook.empty alice_24_08)
           noon_2024_08_20 [alice_24_08] alice_24_08
           (Birthday.mk (Some (mkDate 1991 8 24)) (Some "24.08.1991"))
           "24.08.1991" (mkDate 1991 8 24)).
  - reflexivity.
  - left. reflexivity.
  - reflexivity.
  - reflexivity.
  - reflexivity.
Defined.

(** Four days before a birthday on 1 January, the query returns
    nothing. *)
Example get_upcoming_new_year :
  let carl := with_birthday "Carl" "01.01.1990" (mkDate 1990 1 1) in
  AddressBook.get_upcoming_birthdays
    (AddressBook.add_record AddressBook.empty carl)
    (mkDatetime 2024 12 28 12 0 0 0)
  = Ok [].
Proof. reflexivity. Qed.

(** [strptime] gives dates of the calendar only. *)
Lemma strptime_valid (s : string) (d : date) :
  strptime_dmY s = Ok d ->
  _check_date_fields (year d) (month d) (day d) = true.
Proof.
  unfold strptime_dmY, date_new.
  destruct (format_regex_match s) as [f|]; [|discriminate].
  destruct (negb _); [discriminate|].
  destruct (int (group_d f)) as [dd|]; simpl; [|discriminate].
  destruct (int (group_m f)) as [mm|]; simpl; [|discriminate].
  destruct (int (group_Y f)) as [yy|]; simpl; [|discriminate].
  destruct (_check_date_fields yy mm dd) eqn:Hc; [|discriminate].
  intros H. inversion H. simpl. exact Hc.
Qed.

(** A day that one year has is a day of every year, but for the leap
    day. *)
Lemma check_date_fields_other_year (y y' m d : Z) :
  _check_date_fields y m d = true ->
  MINYEAR <= y' <= MAXYEAR ->
  m <> 2 \/ d <> 29 \/ _is_leap y' = true ->
  _check_date_fields y' m d = true.
Proof.
  unfold _check_date_fields, _days_in_month. intros Hc Hy Hleap.
  repeat (apply andb_true_iff in Hc; destruct Hc as [Hc ?]).
  repeat match goal with
         | H : (_ <=? _) = true |- _ => apply Z.leb_le in H
         end.
  assert (Hd : d <= (if (m =? 2) && _is_leap y' then 29
                     else index _DAYS_IN_MONTH m)).
  { destruct (Z.eqb_spec m 2) as [Hm|Hm]; simpl in *.
    - subst m. destruct (_is_leap y'); simpl; destruct (_is_leap y);
        simpl in *; unfold index in *; simpl in *; lia.
    - exact H. }
  repeat (apply andb_true_iff; split); apply Z.leb_le; lia.
Qed.

(** X13. The query returns whenever the window of seven days exists and
    every record either has no birthday or has one built from text that
    parses and that is not a 29 February, or the current year is a leap
    year. *)
Theorem get_upcoming_returns
        (book : AddressBook.t) (now : datetime) :
  datetime_valid now = true ->
  is_ok (add_days now 7) = true ->
  (forall c, In c (dict_values book) ->
     ContactRecord.birthday c = None
     \/ exists value d,
         ContactRecord.birthday c
         = Some (Birthday.mk (Some d) (Some value))
         /\ strptime_dmY value = Ok d
         /\ (month d <> 2 \/ day d <> 29 \/ _is_leap (dt_year now) = true)) ->
  exists l, AddressBook.get_upcoming_birthdays book now = Ok l.
Proof.
  intros Hv Hw Hall.
  destruct (add_days now 7) as [nw|e] eqn:Hnw; [|discriminate Hw].
  exists (filter (in_window now nw) (dict_values book)).
  apply (get_upcoming_window book now nw Hnw).
  apply Forall_forall. intros c Hin.
  unfold passes, AddressBook.visit.
  destruct (Hall c Hin) as [Hb|[value [d [Hb [Hp Hleap]]]]]; rewrite Hb;
    [reflexivity|].
  simpl. rewrite Hp. simpl.
  unfold replace_year, datetime_new, combine_min_time. simpl.
  assert (Hy : MINYEAR <= dt_year now <= MAXYEAR).
  { unfold datetime_valid, _check_date_fields in Hv.
    repeat (apply andb_true_iff in Hv; destruct Hv as [Hv ?]).
    repeat match goal with
           | H : (_ <=? _) = true |- _ => apply Z.leb_le in H
           end.
    lia. }
  rewrite (check_date_fields_other_year _ (dt_year now) _ _
             (strptime_valid value d Hp) Hy Hleap).
  simpl.
  destruct (datetime_le now _ && datetime_le _ nw); [reflexivity|].
  destruct (datetime_lt nw now && _); reflexivity.
Qed.

Lemma get_upcoming_returns_witness :
  exists l,
    AddressBook.get_upcoming_birthdays
      (AddressBook.add_record (AddressBook.add_record AddressBook.empty ann)
                              alice_24_08)
      noon_2024_08_20
    = Ok l.
Proof.
  apply get_upcoming_returns.
  - reflexivity.
  - reflexivity.
  - intros c [<-|[<-|[]]].
    + left. reflexivity.
    + right. exists "24.08.1991", (mkDate 1991 8 24).
      split; [reflexivity|]. split; [reflexivity|].
      left. simpl. discriminate.
Defined.

(* ===================================================================== *)
(** ** The calendar: ordinals and the order of dates *)

Lemma days_before_year_step (y : Z) :
  _days_before_year (y + 1)
  = _days_before_year y + 365 + (if _is_leap y then 1 else 0).
Proof.
  unfold _days_before_year, _is_leap.
  destruct (Z.eqb_spec (y mod 4) 0); destruct (Z.eqb_spec (y mod 100) 0);
    destruct (Z.eqb_spec (y mod 400) 0); simpl;
    Z.div_mod_to_equations; lia.
Qed.

Lemma days_before_year_mono (y y' : Z) :
  y <= y' -> _days_before_year y <= _days_before_year y'.
Proof.
  unfold _days_before_year. intros H.
  Z.div_mod_to_equations. lia.
Qed.

Lemma check_date_fields_valid (y m d : Z) :
  _check_date_fields y m d = true <-> valid_date y m d.
Proof.
  unfold _check_date_fields, valid_date.
  rewrite !andb_true_iff, !Z.leb_le. tauto.
Qed.

Lemma day_of_year_bounds (y m d : Z) :
  1 <= m <= 12 -> 1 <= d <= _days_in_month y m ->
  1 <= _days_before_month y m + d <= 365 + (if _is_leap y then 1 else 0).
Proof.
  unfold _days_in_month, _days_before_month. intros Hm Hd.
  destruct (_is_leap y); month_cases m; eval_tables; lia.
Qed.

Lemma day_of_year_lt (y m d m' d' : Z) :
  1 <= m <= 12 -> 1 <= d <= _days_in_month y m ->
  1 <= m' <= 12 -> 1 <= d' <= _days_in_month y m' ->
  m < m' ->
  _days_before_month y m + d < _days_before_month y m' + d'.
Proof.
  unfold _days_in_month, _days_before_month. intros Hm Hd Hm' Hd' Hlt.
  destruct (_is_leap y); month_cases m; try lia; month_cases m'; try lia;
    eval_tables; lia.
Qed.

Lemma ymd2ord_year_lt (y m d y' m' d' : Z) :
  1 <= m <= 12 -> 1 <= d <= _days_in_month y m ->
  1 <= m' <= 12 -> 1 <= d' <= _days_in_month y' m' ->
  y < y' ->
  _ymd2ord y m d < _ymd2ord y' m' d'.
Proof.
  intros Hm Hd Hm' Hd' Hlt. unfold _ymd2ord.
  pose proof (day_of_year_bounds y m d Hm Hd) as B.
  pose proof (day_of_year_bounds y' m' d' Hm' Hd') as B'.
  pose proof (days_before_year_step y) as S.
  pose proof (days_before_year_mono (y + 1) y' ltac:(lia)) as M.
  lia.
Qed.

Lemma ymd2ord_compare (y m d y' m' d' : Z) :
  1 <= m <= 12 -> 1 <= d <= _days_in_month y m ->
  1 <= m' <= 12 -> 1 <= d' <= _days_in_month y' m' ->
  _cmp [y; m; d] [y'; m'; d'] = (_ymd2ord y m d ?= _ymd2ord y' m' d').
Proof.
  intros Hm Hd Hm' Hd'. simpl. symmetry.
  destruct (Z.compare_spec y y') as [Hy|Hy|Hy].
  - subst y'. destruct (Z.compare_spec m m') as [Hmm|Hmm|Hmm].
    + subst m'. unfold _ymd2ord.
      destruct (Z.compare_spec d d'); [apply Z.compare_eq_iff|apply Z.compare_lt_iff|apply Z.compare_gt_iff]; lia.
    + apply Z.compare_lt_iff. unfold _ymd2ord.
      pose proof (day_of_year_lt y m d m' d' Hm Hd Hm' Hd' Hmm). lia.
    + apply Z.compare_gt_iff. unfold _ymd2ord.
      pose proof (day_of_year_lt y m' d' m d Hm' Hd' Hm Hd Hmm). lia.
  - apply Z.compare_lt_iff. apply ymd2ord_year_lt; assumption.
  - apply Z.compare_gt_iff. apply ymd2ord_year_lt; assumption.
Qed.

Lemma month_day_table :
  forallb (fun k => month_day_ok true (Z.of_nat k)
                    && month_day_ok false (Z.of_nat k))
          (seq 0 365) = true.
Proof. vm_compute. reflexivity. Qed.

Lemma month_day_of_ok (leapyear : bool) (n : Z) :
  0 <= n <= 364 -> month_day_ok leapyear n = true.
Proof.
  intros Hn.
  pose proof (proj1 (forallb_forall _ _) month_day_table (Z.to_nat n)) as H.
  assert (Hin : In (Z.to_nat n) (seq 0 365)) by (apply in_seq; lia).
  apply H in Hin. cbv beta in Hin. rewrite Z2Nat.id in Hin by lia.
  apply andb_true_iff in Hin.
  destruct leapyear; tauto.
Qed.

Lemma ord2ymd_unfold (n : Z) :
  _ord2ymd n =
  let n0 := n - 1 in
  let n400 := n0 / _DI400Y in
  let r1 := n0 mod _DI400Y in
  let n100 := r1 / _DI100Y in
  let r2 := r1 mod _DI100Y in
  let n4 := r2 / _DI4Y in
  let r3 := r2 mod _DI4Y in
  let n1 := r3 / 365 in
  let r4 := r3 mod 365 in
  let year := n400 * 400 + 1 + n100 * 100 + n4 * 4 + n1 in
  if (n1 =? 4) || (n100 =? 4) then mkDate (year - 1) 12 31
  else
    let md := month_day_of ((n1 =? 3) && (negb (n4 =? 24) || (n100 =? 3))) r4 in
    mkDate year (fst md) (snd md).
Proof.
  unfold _ord2ymd, month_day_of. cbv zeta.
  destruct (_ || _); [reflexivity|].
  destruct (_ <? _); reflexivity.
Qed.

Lemma DI_values : _DI400Y = 146097 /\ _DI100Y = 36524 /\ _DI4Y = 1461.
Proof. repeat split. Qed.

Lemma ord2ymd_spec (n : Z) :
  1 <= n <= _MAXORDINAL ->
  valid_date (year (_ord2ymd n)) (month (_ord2ymd n)) (day (_ord2ymd n))
  /\ _ymd2ord (year (_ord2ymd n)) (month (_ord2ymd n)) (day (_ord2ymd n)) = n.
Proof.
  intros Hn. unfold _MAXORDINAL in Hn.
  rewrite ord2ymd_unfold. cbv zeta.
  destruct DI_values as [-> [-> ->]].
  pose proof (Z.div_mod (n - 1) 146097 ltac:(lia)) as E1.
  pose proof (Z.mod_pos_bound (n - 1) 146097 ltac:(lia)) as B1.
  set (n400 := (n - 1) / 146097) in *.
  set (r1 := (n - 1) mod 146097) in *.
  pose proof (Z.div_mod r1 36524 ltac:(lia)) as E2.
  pose proof (Z.mod_pos_bound r1 36524 ltac:(lia)) as B2.
  set (n100 := r1 / 36524) in *.
  set (r2 := r1 mod 36524) in *.
  pose proof (Z.div_mod r2 1461 ltac:(lia)) as E3.
  pose proof (Z.mod_pos_bound r2 1461 ltac:(lia)) as B3.
  set (n4 := r2 / 1461) in *.
  set (r3 := r2 mod 1461) in *.
  pose proof (Z.div_mod r3 365 ltac:(lia)) as E4.
  pose proof (Z.mod_pos_bound r3 365 ltac:(lia)) as B4.
  set (n1 := r3 / 365) in *.
  set (r4 := r3 mod 365) in *.
  clearbody n400 r1 n100 r2 n4 r3 n1 r4.
  assert (H400 : 0 <= n400 <= 24) by lia.
  assert (H100 : 0 <= n100 <= 4) by lia.
  assert (H4 : 0 <= n4 <= 24) by lia.
  assert (H1 : 0 <= n1 <= 4) by lia.
  set (y := n400 * 400 + 1 + n100 * 100 + n4 * 4 + n1).
  destruct (Z.eqb_spec n1 4) as [Hn1|Hn1]; [|destruct (Z.eqb_spec n100 4) as [Hn100|Hn100]];
    cbn [orb].
  - (* the last day of a leap year that ends a cycle of four years *)
    simpl year; simpl month; simpl day.
    assert (Hleap : _is_leap (y - 1) = true).
    { unfold _is_leap, y.
      destruct (Z.eqb_spec ((n400 * 400 + 1 + n100 * 100 + n4 * 4 + n1 - 1) mod 4) 0);
        destruct (Z.eqb_spec ((n400 * 400 + 1 + n100 * 100 + n4 * 4 + n1 - 1) mod 100) 0);
        destruct (Z.eqb_spec ((n400 * 400 + 1 + n100 * 100 + n4 * 4 + n1 - 1) mod 400) 0);
        simpl; try reflexivity; exfalso; Z.div_mod_to_equations; lia. }
    unfold valid_date, _ymd2ord, _days_in_month, _days_before_month.
    rewrite Hleap. eval_tables.
    unfold MINYEAR, MAXYEAR, _days_before_year, y.
    split; [lia|]. Z.div_mod_to_equations. lia.
  - simpl year; simpl month; simpl day.
    assert (Hleap : _is_leap (y - 1) = true).
    { unfold _is_leap, y.
      destruct (Z.eqb_spec ((n400 * 400 + 1 + n100 * 100 + n4 * 4 + n1 - 1) mod 4) 0);
        destruct (Z.eqb_spec ((n400 * 400 + 1 + n100 * 100 + n4 * 4 + n1 - 1) mod 100) 0);
        destruct (Z.eqb_spec ((n400 * 400 + 1 + n100 * 100 + n4 * 4 + n1 - 1) mod 400) 0);
        simpl; try reflexivity; exfalso; Z.div_mod_to_equations; lia. }
    unfold valid_date, _ymd2ord, _days_in_month, _days_before_month.
    rewrite Hleap. eval_tables.
    unfold MINYEAR, MAXYEAR, _days_before_year, y.
    split; [lia|]. Z.div_mod_to_equations. lia.
  - set (leapyear := (n1 =? 3) && (negb (n4 =? 24) || (n100 =? 3))).
    assert (Hleap : _is_leap y = leapyear).
    { unfold _is_leap, leapyear, y.
      destruct (Z.eqb_spec n1 3); destruct (Z.eqb_spec n4 24);
        destruct (Z.eqb_spec n100 3);
        destruct (Z.eqb_spec ((n400 * 400 + 1 + n100 * 100 + n4 * 4 + n1) mod 4) 0);
        destruct (Z.eqb_spec ((n400 * 400 + 1 + n100 * 100 + n4 * 4 + n1) mod 100) 0);
        destruct (Z.eqb_spec ((n400 * 400 + 1 + n100 * 100 + n4 * 4 + n1) mod 400) 0);
        simpl; try reflexivity; exfalso; Z.div_mod_to_equations; lia. }
    pose proof (month_day_of_ok leapyear r4 ltac:(lia)) as Hmd.
    unfold month_day_ok in Hmd. cbv zeta in Hmd.
    destruct (month_day_of leapyear r4) as [m d]. cbn [fst snd] in Hmd.
    cbn [year month day fst snd].
    repeat (apply andb_true_iff in Hmd; destruct Hmd as [Hmd ?]).
    repeat match goal with
           | H : (_ <=? _) = true |- _ => apply Z.leb_le in H
           | H : (_ =? _) = true |- _ => apply Z.eqb_eq in H
           end.
    unfold valid_date, _ymd2ord, _days_in_month, _days_before_month.
    rewrite Hleap.
    split.
    + unfold MINYEAR, MAXYEAR, y. lia.
    + unfold _days_before_year, y. Z.div_mod_to_equations. lia.
Qed.

Lemma datetime_valid_fields (t : datetime) :
  datetime_valid t = true ->
  valid_date (dt_year t) (dt_month t) (dt_day t)
  /\ 0 <= hour t /\ 0 <= minute t /\ 0 <= second t /\ 0 <= microsecond t.
Proof.
  unfold datetime_valid, _check_time_fields. intros H.
  apply andb_true_iff in H. destruct H as [Hd Ht].
  apply check_date_fields_valid in Hd.
  repeat (apply andb_true_iff in Ht; destruct Ht as [Ht ?]).
  repeat match goal with
         | H : (_ <=? _) = true |- _ => apply Z.leb_le in H
         end.
  tauto.
Qed.

(** Comparing two datetimes is comparing their days, and the times of day
    when the days are the same. *)
Lemma cmp_fields_ordinal (a b : datetime) :
  valid_date (dt_year a) (dt_month a) (dt_day a) ->
  valid_date (dt_year b) (dt_month b) (dt_day b) ->
  _cmp (fields a) (fields b)
  = match toordinal a ?= toordinal b with
    | Eq => _cmp [hour a; minute a; second a; microsecond a]
                 [hour b; minute b; second b; microsecond b]
    | c => c
    end.
Proof.
  intros [_ [Hma Hda]] [_ [Hmb Hdb]]. unfold toordinal.
  rewrite <- (ymd2ord_compare _ _ _ _ _ _ Hma Hda Hmb Hdb).
  unfold fields. simpl.
  destruct (dt_year a ?= dt_year b); try reflexivity.
  destruct (dt_month a ?= dt_month b); try reflexivity.
  destruct (dt_day a ?= dt_day b); reflexivity.
Qed.

Lemma cmp_time_midnight (h mi s us : Z) :
  0 <= h -> 0 <= mi -> 0 <= s -> 0 <= us ->
  _cmp [h; mi; s; us] [0; 0; 0; 0]
  = if (h =? 0) && (mi =? 0) && (s =? 0) && (us =? 0) then Eq else Gt.
Proof.
  intros Bh Bm Bs Bu. simpl.
  destruct (Z.eqb_spec h 0) as [->|Hh];
    [|replace (h ?= 0) with Gt by (symmetry; apply Z.compare_gt_iff; lia);
      reflexivity].
  destruct (Z.eqb_spec mi 0) as [->|Hm];
    [|replace (mi ?= 0) with Gt by (symmetry; apply Z.compare_gt_iff; lia);
      reflexivity].
  destruct (Z.eqb_spec s 0) as [->|Hs];
    [|replace (s ?= 0) with Gt by (symmetry; apply Z.compare_gt_iff; lia);
      reflexivity].
  destruct (Z.eqb_spec us 0) as [->|Hu];
    [|replace (us ?= 0) with Gt by (symmetry; apply Z.compare_gt_iff; lia);
      reflexivity].
  reflexivity.
Qed.

Lemma datetime_le_to_midnight (now cb : datetime) :
  datetime_valid now = true ->
  valid_date (dt_year cb) (dt_month cb) (dt_day cb) ->
  hour cb = 0 -> minute cb = 0 -> second cb = 0 -> microsecond cb = 0 ->
  datetime_le now cb = true
  <-> (if midnight now then 0 else 1) <= toordinal cb - toordinal now.
Proof.
  intros Hv Hcb Hh Hm Hs Hu.
  destruct (datetime_valid_fields now Hv) as [Hd [Bh [Bm [Bs Bu]]]].
  unfold datetime_le. rewrite (cmp_fields_ordinal now cb Hd Hcb).
  rewrite Hh, Hm, Hs, Hu, (cmp_time_midnight _ _ _ _ Bh Bm Bs Bu).
  fold (midnight now).
  destruct (Z.compare_spec (toordinal now) (toordinal cb)) as [He|Hl|Hg].
  - rewrite He, Z.sub_diag.
    destruct (midnight now); split; try reflexivity; try discriminate; lia.
  - split; [|reflexivity]. intros _. destruct (midnight now); lia.
  - split; [discriminate|]. destruct (midnight now); lia.
Qed.

Lemma cmp_midnight_time (h mi s us : Z) :
  0 <= h -> 0 <= mi -> 0 <= s -> 0 <= us ->
  _cmp [0; 0; 0; 0] [h; mi; s; us] <> Gt.
Proof.
  intros Bh Bm Bs Bu. cbn [_cmp].
  destruct (Z.compare_spec 0 h); [|discriminate|lia].
  destruct (Z.compare_spec 0 mi); [|discriminate|lia].
  destruct (Z.compare_spec 0 s); [|discriminate|lia].
  destruct (Z.compare_spec 0 us); [discriminate|discriminate|lia].
Qed.

Lemma datetime_le_from_midnight (cb t : datetime) :
  valid_date (dt_year cb) (dt_month cb) (dt_day cb) ->
  valid_date (dt_year t) (dt_month t) (dt_day t) ->
  hour cb = 0 -> minute cb = 0 -> second cb = 0 -> microsecond cb = 0 ->
  0 <= hour t -> 0 <= minute t -> 0 <= second t -> 0 <= microsecond t ->
  datetime_le cb t = true <-> toordinal cb <= toordinal t.
Proof.
  intros Hcb Ht Hh Hm Hs Hu Bh Bm Bs Bu.
  unfold datetime_le. rewrite (cmp_fields_ordinal cb t Hcb Ht).
  rewrite Hh, Hm, Hs, Hu.
  pose proof (cmp_midnight_time _ _ _ _ Bh Bm Bs Bu) as Hc.
  destruct (Z.compare_spec (toordinal cb) (toordinal t)) as [He|Hl|Hg].
  - split; [lia|]. intros _.
    destruct (_cmp [0; 0; 0; 0] _); [reflexivity|reflexivity|contradiction].
  - split; [lia|reflexivity].
  - split; [discriminate|lia].
Qed.

(** What [today + timedelta(days=7)] is, when it exists. *)
Lemma add_days_spec (t nw : datetime) (n : Z) :
  add_days t n = Ok nw ->
  valid_date (dt_year nw) (dt_month nw) (dt_day nw)
  /\ toordinal nw = toordinal t + n
  /\ hour nw = hour t /\ minute nw = minute t
  /\ second nw = second t /\ microsecond nw = microsecond t.
Proof.
  unfold add_days.
  destruct ((0 <? toordinal t + n) && (toordinal t + n <=? _MAXORDINAL)) eqn:Hg;
    [|discriminate].
  apply andb_true_iff in Hg. destruct Hg as [H0 H1].
  apply Z.ltb_lt in H0. apply Z.leb_le in H1.
  destruct (ord2ymd_spec (toordinal t + n) ltac:(lia)) as [Hv Ho].
  intros H. inversion H; subst nw. unfold toordinal at 1. simpl.
  repeat split; try apply Hv. exact Ho.
Qed.

Lemma passes_candidate (today next_week : datetime) (c : ContactRecord.t)
      (b : Birthday.t) (value : string) (d : date) :
  passes today next_week c = true ->
  ContactRecord.birthday c = Some b ->
  Birthday.value b = Some value ->
  strptime_dmY value = Ok d ->
  candidate today c
  = Some (mkDatetime (dt_year today) (month d) (day d) 0 0 0 0)
  /\ _check_date_fields (dt_year today) (month d) (day d) = true.
Proof.
  intros Hp Hb Hv Hs. unfold passes, AddressBook.visit in Hp.
  unfold candidate. rewrite Hb in *. rewrite Hv in *.
  destruct (Birthday.date b); simpl in Hp; [|discriminate Hp].
  rewrite Hs in *. simpl in Hp.
  unfold replace_year, datetime_new, combine_min_time in *. simpl in *.
  destruct (_check_date_fields (dt_year today) (month d) (day d));
    simpl in *; [auto|discriminate Hp].
Qed.

(** X14. The window in days. Whenever the query returns, a record of the
    book whose birthday text parses is in the answer exactly when its
    birthday in the current year falls one to seven days after the current
    day; the current day itself counts only at the very first instant of
    the day. *)
Theorem get_upcoming_days
        (book : AddressBook.t) (now : datetime) (l : list ContactRecord.t)
        (c : ContactRecord.t) (b : Birthday.t) (value : string) (d : date) :
  datetime_valid now = true ->
  AddressBook.get_upcoming_birthdays book now = Ok l ->
  In c (dict_values book) ->
  ContactRecord.birthday c = Some b ->
  Birthday.value b = Some value ->
  strptime_dmY value = Ok d ->
  In c l
  <-> (if midnight now then 0 else 1)
      <= _ymd2ord (dt_year now) (month d) (day d) - toordinal now
      <= 7.
Proof.
  intros Hv Hl Hin Hb Hval Hp.
  destruct (get_upcoming_ok_filter book now l Hl) as [nw [Hw ->]].
  unfold AddressBook.get_upcoming_birthdays in Hl. rewrite Hw in Hl.
  simpl in Hl.
  pose proof (for_each_visit_ok_passes now nw _ _ _ Hl) as Hall.
  rewrite Forall_forall in Hall. specialize (Hall c Hin).
  destruct (passes_candidate now nw c b value d Hall Hb Hval Hp) as [Hc Hcf].
  apply check_date_fields_valid in Hcf.
  destruct (add_days_spec now nw 7 Hw) as [Hnv [Hno [Hh [Hm [Hs Hu]]]]].
  destruct (datetime_valid_fields now Hv) as [_ [Bh [Bm [Bs Bu]]]].
  set (cb := mkDatetime (dt_year now) (month d) (day d) 0 0 0 0) in *.
  assert (Hlo := datetime_le_to_midnight now cb Hv Hcf eq_refl eq_refl eq_refl eq_refl).
  assert (Hhi : datetime_le cb nw = true <-> toordinal cb <= toordinal nw).
  { apply datetime_le_from_midnight; try reflexivity; try assumption; lia. }
  change (toordinal cb) with (_ymd2ord (dt_year now) (month d) (day d)) in *.
  rewrite filter_In. unfold in_window. rewrite Hc.
  rewrite andb_true_iff, Hlo, Hhi, Hno.
  split; [intros [_ H]; lia|intros H; split; [exact Hin|lia]].
Qed.

Lemma get_upcoming_days_witness :
  In alice_24_08 [alice_24_08]
  <-> (if midnight noon_2024_08_20 then 0 else 1)
      <= _ymd2ord (dt_year noon_2024_08_20) 8 24 - toordinal noon_2024_08_20
      <= 7.
Proof.
  apply (get_upcoming_days
           (AddressBook.add_record AddressBook.empty alice_24_08)
           noon_2024_08_20 [alice_24_08] alice_24_08
           (Birthday.mk (Some (mkDate 1991 8 24)) (Some "24.08.1991"))
           "24.08.1991" (mkDate 1991 8 24)).
  - reflexivity.
  - reflexivity.
  - left. reflexivity.
  - reflexivity.
  - reflexivity.
  - reflexivity.
Defined.

(* ===================================================================== *)
(** ** The handlers: adding and changing phones *)

Ltac run_cmd :=
  cbv beta iota zeta delta
      [hbind hret of_result of_M contains getitem find store add_record
       book_of unpack2 fst snd rbind mbind ret lift
       Contact.__init__ Contact.add_phone Contact.add_birthday];
  cbn [Contact.name Contact.phones Contact.birthday].

Lemma dict_setitem_absent {V : Type} (d : dict V) (k : string) (v : V) :
  dict_contains d k = false -> dict_setitem d k v = d ++ [(k, v)].
Proof.
  induction d as [|[k' v'] d IH]; simpl; [reflexivity|].
  destruct (String.eqb k' k); simpl; [discriminate|].
  intros Hc. rewrite (IH Hc). reflexivity.
Qed.

Lemma dict_getitem_contains {V : Type} (d : dict V) (k : string) (v : V) :
  dict_getitem d k = Some v -> dict_contains d k = true.
Proof.
  destruct (dict_contains d k) eqn:Hc; [reflexivity|].
  rewrite (dict_getitem_absent d k Hc). discriminate.
Qed.

Lemma dict_setitem_same {V : Type} (d : dict V) (k : string) (v : V) :
  dict_contains (dict_setitem d k v) k = true
  /\ dict_getitem (dict_setitem d k v) k = Some v.
Proof.
  induction d as [|[k' v'] d [IH1 IH2]]; simpl.
  - rewrite String.eqb_refl. auto.
  - destruct (String.eqb k' k) eqn:Hk; simpl; rewrite Hk; simpl; auto.
Qed.

Lemma Name_init_nonempty (name : string) :
  name <> EmptyString -> Name.__init__ name = Ok (Name.mk name).
Proof.
  intros Hne. unfold Name.__init__.
  destruct (String.eqb_spec name EmptyString); [contradiction|reflexivity].
Qed.

Lemma valid_phone (phone : string) :
  len phone = 10 -> str_isdigit phone = true ->
  (len phone =? 10) && str_isdigit phone = true.
Proof.
  intros Hl Hd. rewrite Hd. apply Z.eqb_eq in Hl. rewrite Hl. reflexivity.
Qed.

(** X15. [add] with a name and a valid phone: for a name that is not in
    the book the answer is ["Contact added."] and the book gets, at its
    end, a record of that name with this one phone; for a name that is in
    the book the answer is ["Contact updated."] and the phone is put after
    the phones of its record, which keeps its place, its name and its
    birthday. *)
Theorem add_contact_adds
        (name phone : string) (book : dict Contact.t) (h : heap) :
  len phone = 10 ->
  str_isdigit phone = true ->
  name <> EmptyString ->
  (dict_contains book name = false ->
   add_contact [name; phone] (book, h)
   = (Returns (Some "Contact added."),
      (book ++ [(name, Contact.mk (Name.mk name)
                                  [PhoneObject (Phone.mk h phone)] None)],
       S h)))
  /\ (forall r, dict_getitem book name = Some r ->
        add_contact [name; phone] (book, h)
        = (Returns (Some "Contact updated."),
           (dict_setitem book name
              (Contact.mk (Contact.name r)
                          (Contact.phones r ++ [PhoneObject (Phone.mk h phone)])
                          (Contact.birthday r)),
            S h))).
Proof.
  intros Hl Hd Hne. pose proof (valid_phone phone Hl Hd) as Hv.
  split.
  - intros Hc. unfold add_contact, input_error, add_contact_body. run_cmd.
    rewrite Hc, (Name_init_nonempty name Hne). run_cmd.
    rewrite (Phone_init_accepts phone h Hv). run_cmd.
    rewrite (dict_setitem_absent book _ _ Hc). reflexivity.
  - intros r Hr. unfold add_contact, input_error, add_contact_body. run_cmd.
    rewrite (dict_getitem_contains book name r Hr), Hr. run_cmd.
    rewrite (Phone_init_accepts phone h Hv). reflexivity.
Qed.

Lemma add_contact_adds_witness :
  add_contact ["Ann"; "1234567890"] fresh_state
  = (Returns (Some "Contact added."),
     ([("Ann", Contact.mk (Name.mk "Ann")
                          [PhoneObject (Phone.mk 0 "1234567890")] None)],
      1%nat)).
Proof.
  apply (proj1 (add_contact_adds "Ann" "1234567890" [] 0%nat
                 eq_refl eq_refl ltac:(discriminate))).
  reflexivity.
Defined.

(** X16. [add] refuses without touching anything: with another number of
    arguments than two, or with a phone that is not valid, the answer is
    ["Give me name and phone please."] and book and heap are as before; no
    contact is left half-made. *)
Theorem add_contact_refuses (args : list string) (st : state) :
  (length args <> 2%nat
   \/ exists name phone,
       args = [name; phone]
       /\ (len phone =? 10) && str_isdigit phone = false) ->
  add_contact args st = (Returns (Some give_me), st).
Proof.
  destruct st as [book h].
  intros [Hlen|[name [phone [-> Hv]]]].
  - unfold add_contact, input_error, add_contact_body. run_cmd.
    destruct args as [|a [|b [|c args]]]; simpl in *;
      try reflexivity. contradiction.
  - unfold add_contact, input_error, add_contact_body. run_cmd.
    destruct (dict_contains book name) eqn:Hc.
    + destruct (dict_getitem_present book name Hc) as [r Hr]. rewrite Hr.
      run_cmd. rewrite (Phone_init_refuses phone h Hv). reflexivity.
    + unfold Name.__init__.
      destruct (String.eqb name EmptyString); [reflexivity|]. run_cmd.
      rewrite (Phone_init_refuses phone h Hv). reflexivity.
Qed.

Lemma add_contact_refuses_witness :
  add_contact ["Ann"; "12345"] fresh_state = (Returns (Some give_me), fresh_state)
  /\ add_contact ["Ann"] fresh_state = (Returns (Some give_me), fresh_state).
Proof.
  split.
  - apply add_contact_refuses. right. exists "Ann", "12345".
    split; reflexivity.
  - apply add_contact_refuses. left. simpl. discriminate.
Defined.

(** X17. [change] does not validate: for a name that is in the book it
    takes any text, answers ["Contact updated."] and leaves that text as
    the only item of the phone list; [phone] for the name then shows this
    very text. *)
Theorem change_contact_stores_any_text
        (name new_phone : string) (book : dict Contact.t) (h : heap)
        (r : Contact.t) :
  dict_getitem book name = Some r ->
  let st' := (dict_setitem book name
                (Contact.mk (Contact.name r) [Text new_phone]
                            (Contact.birthday r)), h) in
  change_contact [name; new_phone] (book, h)
  = (Returns (Some "Contact updated."), st')
  /\ show_phone [name] st'
     = (Returns (Some ("Phone number for " ++ name ++ ": " ++ new_phone)%string),
        st').
Proof.
  intros Hr st'. split.
  - unfold change_contact, input_error, change_contact_body. run_cmd.
    rewrite (dict_getitem_contains book name r Hr), Hr. reflexivity.
  - unfold show_phone, input_error, show_phone_body, st'. run_cmd.
    cbn [list_getitem nth_error].
    destruct (dict_setitem_same book name
                (Contact.mk (Contact.name r) [Text new_phone]
                            (Contact.birthday r))) as [Hc Hg].
    rewrite Hc, Hg. reflexivity.
Qed.

Lemma change_contact_stores_any_text_witness :
  let book := [("Ann", Contact.of_record ann)] in
  let st' := ([("Ann", Contact.mk (Name.mk "Ann") [Text "not a phone"] None)],
              1%nat) in
  change_contact ["Ann"; "not a phone"] (book, 1%nat)
  = (Returns (Some "Contact updated."), st')
  /\ show_phone ["Ann"] st'
     = (Returns (Some "Phone number for Ann: not a phone"), st').
Proof.
  apply (change_contact_stores_any_text
           "Ann" "not a phone" [("Ann", Contact.of_record ann)] 1%nat
           (Contact.of_record ann)).
  reflexivity.
Defined.

Lemma texts_phone_object (items : list item) (p : Phone.t) :
  In (PhoneObject p) items -> texts items = Raises TypeError.
Proof.
  induction items as [|i items IH]; [intros []|].
  intros [->|Hin]; [reflexivity|].
  destruct i as [q|s]; [reflexivity|]. simpl. rewrite (IH Hin). reflexivity.
Qed.

(** X18. [phone] fails on a phone that [add] stored: when the phone list
    of the contact holds a [Phone] object, joining the list raises
    [TypeError], which [input_error] does not catch. *)
Theorem show_phone_raises_TypeError
        (name : string) (more : list string) (st : state)
        (r : Contact.t) (p : Phone.t) :
  dict_getitem (book_of st) name = Some r ->
  In (PhoneObject p) (Contact.phones r) ->
  show_phone (name :: more) st = (Raises TypeError, st).
Proof.
  intros Hr Hin. destruct st as [book h]. unfold book_of in Hr. simpl in Hr.
  unfold show_phone, input_error, show_phone_body. run_cmd.
  cbn [list_getitem nth_error].
  rewrite (dict_getitem_contains book name r Hr), Hr.
  rewrite (texts_phone_object _ p Hin). reflexivity.
Qed.

(** Right after [add], [phone] ends the program. *)
Lemma show_phone_raises_TypeError_witness :
  let st := snd (add_contact ["Ann"; "1234567890"] fresh_state) in
  show_phone ["Ann"] st = (Raises TypeError, st).
Proof.
  apply (show_phone_raises_TypeError
           "Ann" [] _
           (Contact.mk (Name.mk "Ann")
                       [PhoneObject (Phone.mk 0 "1234567890")] None)
           (Phone.mk 0 "1234567890")).
  - reflexivity.
  - left. reflexivity.
Defined.

(* ===================================================================== *)
(** ** The handlers: birthdays *)

Lemma dict_getitem_none_contains {V : Type} (d : dict V) (k : string) :
  dict_getitem d k = None -> dict_contains d k = false.
Proof.
  destruct (dict_contains d k) eqn:Hc; [|reflexivity].
  destruct (dict_getitem_present d k Hc) as [v Hv]. congruence.
Qed.

(** What [add-birthday] does with two arguments, whatever the date text
    is. *)
Lemma add_birthday_run
      (name text : string) (book : dict Contact.t) (h : heap) (b : Birthday.t) :
  name <> EmptyString ->
  Birthday.__init__ text = Ok b ->
  add_birthday [name; text] (book, h)
  = match dict_getitem book name with
    | Some r =>
        (Returns (Some ("Birthday added for " ++ name)%string),
         (dict_setitem book name
            (Contact.mk (Contact.name r) (Contact.phones r) (Some b)), h))
    | None =>
        (Returns (Some ("New contact " ++ name ++ " created with birthday "
                        ++ text)%string),
         (dict_setitem book name (Contact.mk (Name.mk name) [] (Some b)), h))
    end.
Proof.
  intros Hne Hb. unfold add_birthday, input_error, add_birthday_body. run_cmd.
  destruct (dict_getitem book name) as [r|] eqn:Hr.
  - rewrite (dict_getitem_contains book name r Hr). run_cmd.
    rewrite Hb. reflexivity.
  - rewrite (dict_getitem_none_contains book name Hr). run_cmd.
    rewrite (Name_init_nonempty name Hne). run_cmd. rewrite Hb. reflexivity.
Qed.



Lemma well_keyed_lookup (book : dict Contact.t) (k : string) (r : Contact.t) :
  well_keyed book -> dict_getitem book k = Some r ->
  Name.value (Contact.name r) = k.
Proof.
  intros [Hk _]. induction Hk as [|[k' v] book Hkv _ IH]; simpl; [discriminate|].
  destruct (String.eqb_spec k' k) as [Heq|_].
  - intros H. inversion H; subst. exact Hkv.
  - exact IH.
Qed.

(** X20. [show-birthday] after [add-birthday]: in a book whose records
    are stored under their names, the date text comes back as it was
    given when it parses, and when it does not parse the command raises
    [AttributeError], which [input_error] does not catch. *)
Theorem show_birthday_after_add_birthday
        (name text : string) (book : dict Contact.t) (h : heap) :
  well_keyed book ->
  name <> EmptyString ->
  let st' := snd (add_birthday [name; text] (book, h)) in
  show_birthday [name] st'
  = if is_ok (strptime_dmY text)
    then (Returns (Some (name ++ "'s birthday is on " ++ text)%string), st')
    else (Raises (Exn AttributeError), st').
Proof.
  intros Hwk Hne st'.
  destruct (Birthday_init_total text) as [b Hb].
  unfold st'. rewrite (add_birthday_run name text book h b Hne Hb).
  assert (Hshow : forall r,
            Name.value (Contact.name r) = name ->
            Contact.birthday r = Some b ->
            show_birthday [name] (dict_setitem book name r, h)
            = if is_ok (strptime_dmY text)
              then (Returns (Some (name ++ "'s birthday is on " ++ text)%string),
                    (dict_setitem book name r, h))
              else (Raises (Exn AttributeError), (dict_setitem book name r, h))).
  { intros r Hn Hbr.
    unfold show_birthday, input_error, show_birthday_body. run_cmd.
    destruct (dict_setitem_same book name r) as [Hc Hg]. rewrite Hc, Hg.
    unfold birthday_value. rewrite Hbr, Hn. cbn [getattr rbind].
    destruct (strptime_dmY text) as [d|e] eqn:Hp.
    - rewrite (Birthday_init_parsed text d Hp) in Hb. inversion Hb; subst b.
      reflexivity.
    - rewrite Birthday_init_unparsed in Hb by (rewrite Hp; reflexivity).
      inversion Hb; subst b. reflexivity. }
  destruct (dict_getitem book name) as [r|] eqn:Hr; cbn [snd].
  - apply Hshow; [|reflexivity]. simpl.
    apply (well_keyed_lookup book name r Hwk Hr).
  - apply Hshow; reflexivity.
Qed.

Lemma show_birthday_after_add_birthday_witness :
  let st' := snd (add_birthday ["Bob"; "24.08.1991"] fresh_state) in
  show_birthday ["Bob"] st'
  = if is_ok (strptime_dmY "24.08.1991")
    then (Returns (Some "Bob's birthday is on 24.08.1991"), st')
    else (Raises (Exn AttributeError), st').
Proof.
  apply (show_birthday_after_add_birthday "Bob" "24.08.1991" [] 0%nat).
  - split; constructor.
  - discriminate.
Defined.

(* ===================================================================== *)
(** ** The handlers: the [birthdays] command *)

(** The loop body on the records of the handlers is the loop body of
    [AddressBook] on the records of the classes. *)
Lemma visit_of_core :
  visit_of ContactRecord.birthday = AddressBook.visit.
Proof. reflexivity. Qed.

Section VisitOf.

Variable R : Type.
Variable birthday : R -> option Birthday.t.
Variables today next_week : datetime.

Lemma visit_of_acc (acc : list R) (c : R) :
  visit_of birthday today next_week acc c
  = (l <- visit_of birthday today next_week [] c ;; Ok (acc ++ l)).
Proof.
  unfold visit_of.
  destruct (birthday c) as [b|]; simpl; [|rewrite app_nil_r; reflexivity].
  destruct (Birthday.date b) as [d0|]; simpl; [|reflexivity].
  destruct (Birthday.value b) as [v|]; simpl; [|reflexivity].
  destruct (strptime_dmY v) as [d|]; simpl; [|reflexivity].
  destruct (replace_year _ _) as [cb|]; simpl; [|reflexivity].
  destruct (datetime_le today cb && datetime_le cb next_week);
    [reflexivity|].
  destruct (datetime_lt next_week today && (dt_year cb =? dt_year today + 1));
    simpl; rewrite ?app_nil_r; reflexivity.
Qed.

(** The loop body raises [AttributeError] or [ValueError], nothing
    else. *)
Lemma visit_of_raises (acc : list R) (c : R) (e : exn) :
  visit_of birthday today next_week acc c = Raise e ->
  e = AttributeError \/ e = ValueError.
Proof.
  unfold visit_of.
  destruct (birthday c) as [b|]; simpl; [|discriminate].
  destruct (Birthday.date b) as [d0|]; simpl; [|intros H; inversion H; auto].
  destruct (Birthday.value b) as [v|]; simpl; [|intros H; inversion H; auto].
  destruct (strptime_dmY v) as [d|e0] eqn:Hp; simpl.
  - unfold replace_year, datetime_new.
    destruct (_ && _); simpl; [|intros H; inversion H; auto].
    destruct (_ && _); [discriminate|].
    destruct (_ && _); discriminate.
  - intros H. inversion H; subst. right.
    apply (strptime_raises_ValueError v e Hp).
Qed.

Lemma for_each_visit_of_raises (xs acc : list R) (e : exn) :
  for_each (visit_of birthday today next_week) xs acc = Raise e ->
  e = AttributeError \/ e = ValueError.
Proof.
  revert acc. induction xs as [|x xs IH]; intros acc; simpl; [discriminate|].
  destruct (visit_of birthday today next_week acc x) as [acc'|e0] eqn:Hx; simpl.
  - apply IH.
  - intros H. inversion H; subst. apply (visit_of_raises acc x e Hx).
Qed.

Lemma for_each_visit_of_ok (xs acc l : list R) :
  for_each (visit_of birthday today next_week) xs acc = Ok l ->
  Forall (fun c => is_ok (visit_of birthday today next_week [] c) = true) xs.
Proof.
  revert acc. induction xs as [|x xs IH]; intros acc; simpl; [constructor|].
  rewrite visit_of_acc.
  destruct (visit_of birthday today next_week [] x) as [l0|e] eqn:Hx; simpl;
    [|discriminate].
  intros Hl. constructor; [rewrite Hx; reflexivity|]. apply (IH _ Hl).
Qed.

Lemma for_each_visit_of_first_failure (pre post acc : list R) (r : R) (e : exn) :
  Forall (fun c => is_ok (visit_of birthday today next_week [] c) = true) pre ->
  visit_of birthday today next_week [] r = Raise e ->
  for_each (visit_of birthday today next_week) (pre ++ r :: post) acc = Raise e.
Proof.
  intros Hpre Hr. revert acc.
  induction Hpre as [|x pre Hx _ IH]; intros acc; simpl.
  - rewrite visit_of_acc, Hr. reflexivity.
  - rewrite visit_of_acc.
    destruct (visit_of birthday today next_week [] x); [|discriminate Hx].
    simpl. apply IH.
Qed.

End VisitOf.

(** The values of a dictionary after [d[k] = v]: [v], between values
    that were there. *)
Lemma dict_values_setitem {V : Type} (d : dict V) (k : string) (v : V) :
  exists pre post,
    dict_values (dict_setitem d k v) = pre ++ v :: post
    /\ (forall x, In x pre -> In x (dict_values d)).
Proof.
  induction d as [|[k' v'] d [pre [post [Heq Hin]]]]; simpl.
  - exists [], []. split; [reflexivity|intros x []].
  - destruct (String.eqb k' k); simpl.
    + exists [], (dict_values d). split; [reflexivity|intros x []].
    + exists (v' :: pre), post. unfold dict_values in *. simpl. rewrite Heq.
      split; [reflexivity|]. intros x [->|Hx]; [left; reflexivity|].
      right. apply Hin. exact Hx.
Qed.

(** After [add-birthday], the query stops at the record of that name with
    what its new birthday raises, when it did return before. *)
Lemma upcoming_after_add_birthday
      (name text : string) (book : dict Contact.t) (h : heap)
      (now : datetime) (l : list Contact.t) (b : Birthday.t) (e : exn) :
  name <> EmptyString ->
  upcoming book now = Ok l ->
  Birthday.__init__ text = Ok b ->
  (forall (c : Contact.t) next_week,
     Contact.birthday c = Some b ->
     visit_of Contact.birthday now next_week [] c = Raise e) ->
  upcoming (book_of (snd (add_birthday [name; text] (book, h)))) now = Raise e.
Proof.
  intros Hne Hl Hb He.
  rewrite (add_birthday_run name text book h b Hne Hb).
  unfold upcoming in *.
  destruct (add_days now 7) as [nw|e0]; simpl in Hl; [|discriminate Hl].
  pose proof (for_each_visit_of_ok _ _ _ _ _ _ _ Hl) as Hall.
  rewrite Forall_forall in Hall.
  assert (Hgo : forall r, Contact.birthday r = Some b ->
            for_each (visit_of Contact.birthday now nw)
                     (dict_values (dict_setitem book name r)) [] = Raise e).
  { intros r Hbr.
    destruct (dict_values_setitem book name r) as [pre [post [-> Hin]]].
    apply for_each_visit_of_first_failure.
    - apply Forall_forall. intros c Hc. apply Hall, Hin, Hc.
    - apply He. exact Hbr. }
  destruct (dict_getitem book name); cbn [snd book_of fst rbind];
    apply Hgo; reflexivity.
Qed.

(** X21. One date that does not parse breaks the [birthdays] command:
    when the query returned on the book, then after [add-birthday] with a
    text that does not parse, [birthdays] raises [AttributeError], which
    [input_error] does not catch. *)
Theorem birthdays_after_unparsed_date
        (name text : string) (book : dict Contact.t) (h : heap)
        (now : datetime) (l : list Contact.t) (args : list string) :
  name <> EmptyString ->
  upcoming book now = Ok l ->
  is_ok (strptime_dmY text) = false ->
  let st' := snd (add_birthday [name; text] (book, h)) in
  birthdays now args st' = (Raises (Exn AttributeError), st').
Proof.
  intros Hne Hl Hp st'.
  assert (Hup : upcoming (book_of st') now = Raise AttributeError).
  { apply (upcoming_after_add_birthday name text book h now l
             (Birthday.mk None None) AttributeError Hne Hl).
    - apply Birthday_init_unparsed. exact Hp.
    - intros c nw Hc. unfold visit_of. rewrite Hc. reflexivity. }
  clearbody st'. destruct st' as [book' h']. unfold book_of in Hup.
  cbn [fst] in Hup.
  unfold birthdays, input_error, birthdays_body. run_cmd.
  rewrite Hup. reflexivity.
Qed.

Lemma birthdays_after_unparsed_date_witness :
  let st' := snd (add_birthday ["Bob"; "soon"]
                    ([("Ann", Contact.of_record ann)], 1%nat)) in
  birthdays noon_2024_08_20 [] st' = (Raises (Exn AttributeError), st').
Proof.
  apply (birthdays_after_unparsed_date
           "Bob" "soon" [("Ann", Contact.of_record ann)] 1%nat
           noon_2024_08_20 [] []).
  - discriminate.
  - reflexivity.
  - reflexivity.
Defined.

(** X22. A leap day gets the message meant for a bad phone: when the
    query returned on the book and the current year is not a leap year,
    then after [add-birthday] with a 29 February the [birthdays] command
    answers ["Give me name and phone please."], because the [ValueError] of
    the query is caught by [input_error]. *)
Theorem birthdays_after_leap_day
        (name text : string) (book : dict Contact.t) (h : heap)
        (now : datetime) (l : list Contact.t) (args : list string) (y : Z) :
  name <> EmptyString ->
  upcoming book now = Ok l ->
  strptime_dmY text = Ok (mkDate y 2 29) ->
  _is_leap (dt_year now) = false ->
  let st' := snd (add_birthday [name; text] (book, h)) in
  birthdays now args st' = (Returns (Some give_me), st').
Proof.
  intros Hne Hl Hp Hy st'.
  assert (Hup : upcoming (book_of st') now = Raise ValueError).
  { apply (upcoming_after_add_birthday name text book h now l
             (Birthday.mk (Some (mkDate y 2 29)) (Some text)) ValueError Hne Hl).
    - apply Birthday_init_parsed. exact Hp.
    - intros c nw Hc. unfold visit_of. rewrite Hc. simpl. rewrite Hp. simpl.
      rewrite replace_year_leap_day; [reflexivity| reflexivity | reflexivity
                                      | exact Hy]. }
  clearbody st'. destruct st' as [book' h']. unfold book_of in Hup.
  cbn [fst] in Hup.
  unfold birthdays, input_error, birthdays_body. run_cmd.
  rewrite Hup. reflexivity.
Qed.

Lemma birthdays_after_leap_day_witness :
  let st' := snd (add_birthday ["Leap"; "29.02.2000"] fresh_state) in
  birthdays noon_2023_08_20 [] st' = (Returns (Some give_me), st').
Proof.
  apply (birthdays_after_leap_day
           "Leap" "29.02.2000" [] 0%nat noon_2023_08_20 [] [] 2000).
  - discriminate.
  - reflexivity.
  - reflexivity.
  - reflexivity.
Defined.

(* ===================================================================== *)
(** ** The loop of [main] *)

Lemma split_from_word (w s : string) : split_from (Some w) s <> [].
Proof.
  revert w. induction s as [|c s IH]; intros w; simpl; [discriminate|].
  destruct (isspace c); [discriminate|apply IH].
Qed.

(** [split] finds no word exactly in a text of spaces. *)
Lemma split_nil_iff (s : string) :
  split s = [] <-> string_forallb isspace s = true.
Proof.
  unfold split. induction s as [|c s IH]; simpl; [tauto|].
  destruct (isspace c); simpl; [exact IH|].
  split; [intros H; exfalso; exact (split_from_word _ _ H)|discriminate].
Qed.

(** X23. A line without a word ends the program: on an empty line or a
    line of spaces, [parse_input] raises [ValueError] outside every
    [input_error], and the book is as it was. *)
Theorem blank_line_crashes (line : string) (now : datetime) (st : state) :
  string_forallb isspace line = true ->
  parse_input line = Raise ValueError
  /\ step line now st = Crashed (Exn ValueError) st.
Proof.
  intros Hs. apply split_nil_iff in Hs.
  unfold step, parse_input. rewrite Hs. split; reflexivity.
Qed.

Lemma blank_line_crashes_witness :
  parse_input "   " = Raise ValueError
  /\ step "   " noon_2024_08_20 fresh_state = Crashed (Exn ValueError) fresh_state.
Proof. apply blank_line_crashes. reflexivity. Defined.

Lemma dict_setitem_forall {V : Type} (P : string * V -> Prop)
      (d : dict V) (k : string) (v : V) :
  Forall P d -> P (k, v) -> Forall P (dict_setitem d k v).
Proof.
  intros Hd Hkv. induction Hd as [|[k' v'] d Hx Hd IH]; simpl.
  - constructor; [exact Hkv|constructor].
  - destruct (String.eqb_spec k' k) as [->|_].
    + constructor; assumption.
    + constructor; assumption.
Qed.

Lemma store_well_keyed (book : dict Contact.t) (k : string) (r : Contact.t) :
  well_keyed book ->
  Name.value (Contact.name r) = k ->
  well_keyed (dict_setitem book k r).
Proof.
  intros [Hk Hu] Hn. split.
  - apply dict_setitem_forall; [exact Hk|exact Hn].
  - apply unique_keys_setitem. exact Hu.
Qed.

Lemma texts_raises (items : list item) (e : error) :
  texts items = Raises e -> e = TypeError.
Proof.
  induction items as [|[p|s] items IH]; simpl.
  - discriminate.
  - intros H. inversion H. reflexivity.
  - destruct (texts items); [discriminate|].
    intros H. inversion H; subst. apply IH. reflexivity.
Qed.

Lemma add_days_raises (t : datetime) (n : Z) (e : exn) :
  add_days t n = Raise e -> e = OverflowError.
Proof.
  unfold add_days. destruct (_ && _); [discriminate|].
  intros H. inversion H. reflexivity.
Qed.

Lemma birthday_lines_raises (cs : list Contact.t) (e : exn) :
  birthday_lines cs = Raise e -> e = AttributeError.
Proof.
  induction cs as [|c cs IH]; simpl; [discriminate|].
  unfold birthday_value.
  destruct (Contact.birthday c) as [b|]; simpl;
    [|intros H; inversion H; reflexivity].
  destruct (Birthday.value b); simpl; [|intros H; inversion H; reflexivity].
  destruct (birthday_lines cs); simpl; [discriminate|].
  intros H. inversion H; subst. apply IH. reflexivity.
Qed.

Lemma upcoming_raises (book : dict Contact.t) (now : datetime) (e : exn) :
  upcoming book now = Raise e ->
  e = OverflowError \/ e = AttributeError \/ e = ValueError.
Proof.
  unfold upcoming.
  destruct (add_days now 7) as [nw|e0] eqn:Hw; simpl.
  - intros H. right. apply (for_each_visit_of_raises _ _ _ _ _ _ _ H).
  - intros H. inversion H; subst. left. apply (add_days_raises _ _ _ Hw).
Qed.

Lemma add_contact_ok : handler_ok (fun _ => False) add_contact.
Proof.
  intros args [book h].
  unfold add_contact, input_error, add_contact_body. run_cmd.
  destruct args as [|name [|phone [|c args]]]; try (intros Hw; exact Hw).
  destruct (dict_contains book name) eqn:Hc.
  - destruct (dict_getitem book name) as [r|] eqn:Hr;
      [|intros Hw; exact Hw].
    run_cmd.
    destruct ((len phone =? 10) && str_isdigit phone) eqn:Hv.
    + rewrite (Phone_init_accepts phone h Hv). run_cmd.
      intros Hw. apply store_well_keyed; [exact Hw|].
      apply (well_keyed_lookup book name r Hw Hr).
    + rewrite (Phone_init_refuses phone h Hv). intros Hw. exact Hw.
  - unfold Name.__init__.
    destruct (String.eqb name EmptyString); [intros Hw; exact Hw|]. run_cmd.
    destruct ((len phone =? 10) && str_isdigit phone) eqn:Hv.
    + rewrite (Phone_init_accepts phone h Hv). run_cmd.
      intros Hw. apply store_well_keyed; [exact Hw|reflexivity].
    + rewrite (Phone_init_refuses phone h Hv). intros Hw. exact Hw.
Qed.

Lemma change_contact_ok : handler_ok (fun _ => False) change_contact.
Proof.
  intros args [book h].
  unfold change_contact, input_error, change_contact_body. run_cmd.
  destruct args as [|name [|phone [|c args]]]; try (intros Hw; exact Hw).
  destruct (dict_contains book name) eqn:Hc; [|intros Hw; exact Hw].
  destruct (dict_getitem book name) as [r|] eqn:Hr; [|intros Hw; exact Hw].
  run_cmd. intros Hw. apply store_well_keyed; [exact Hw|].
  apply (well_keyed_lookup book name r Hw Hr).
Qed.

Lemma show_phone_ok : handler_ok (fun e => e = TypeError) show_phone.
Proof.
  intros args [book h].
  unfold show_phone, input_error, show_phone_body. run_cmd.
  destruct args as [|name args]; cbn [list_getitem nth_error];
    [intros Hw; exact Hw|].
  destruct (dict_contains book name) eqn:Hc; [|intros Hw; exact Hw].
  destruct (dict_getitem book name) as [r|] eqn:Hr; [|intros Hw; exact Hw].
  destruct (texts (Contact.phones r)) as [parts|e] eqn:Ht;
    [intros Hw; exact Hw|].
  rewrite (texts_raises _ e Ht). split; reflexivity.
Qed.

Lemma show_all_ok : handler_ok (fun _ => False) show_all.
Proof.
  intros args [book h]. unfold show_all, input_error, show_all_body.
  unfold book_of. cbn [fst]. destruct book; intros Hw; exact Hw.
Qed.

Lemma add_birthday_ok : handler_ok (fun _ => False) add_birthday.
Proof.
  intros args [book h].
  unfold add_birthday, input_error, add_birthday_body. run_cmd.
  destruct args as [|name [|text [|c args]]]; try (intros Hw; exact Hw).
  destruct (Birthday_init_total text) as [b Hb].
  destruct (dict_contains book name) eqn:Hc.
  - destruct (dict_getitem book name) as [r|] eqn:Hr; run_cmd; rewrite ?Hb;
      run_cmd.
    + intros Hw. apply store_well_keyed; [exact Hw|].
      apply (well_keyed_lookup book name r Hw Hr).
    + unfold Name.__init__.
      destruct (String.eqb name EmptyString); [intros Hw; exact Hw|].
      run_cmd. rewrite ?Hb. run_cmd. intros Hw.
      apply store_well_keyed; [exact Hw|reflexivity].
  - unfold Name.__init__.
    destruct (String.eqb name EmptyString); [intros Hw; exact Hw|].
    run_cmd. rewrite ?Hb. run_cmd. intros Hw.
    apply store_well_keyed; [exact Hw|reflexivity].
Qed.

Lemma show_birthday_ok :
  handler_ok (fun e => e = Exn AttributeError) show_birthday.
Proof.
  intros args [book h].
  unfold show_birthday, input_error, show_birthday_body. run_cmd.
  destruct args as [|name args]; [intros Hw; exact Hw|].
  destruct (if dict_contains book name then dict_getitem book name else None)
    as [r|]; [|intros Hw; exact Hw].
  unfold birthday_value.
  destruct (Contact.birthday r) as [b|]; cbn [getattr rbind];
    [|split; reflexivity].
  destruct (Birthday.value b); cbn [getattr];
    [intros Hw; exact Hw|split; reflexivity].
Qed.

Lemma birthdays_ok (now : datetime) :
  handler_ok (fun e => e = Exn AttributeError \/ e = Exn OverflowError)
             (birthdays now).
Proof.
  intros args [book h].
  unfold birthdays, input_error, birthdays_body. run_cmd.
  destruct (upcoming book now) as [l|e] eqn:Hu.
  - destruct l as [|c l]; [intros Hw; exact Hw|].
    destruct (birthday_lines (c :: l)) as [lines|e] eqn:Hl;
      [intros Hw; exact Hw|].
    rewrite (birthday_lines_raises _ e Hl). split; [reflexivity|]. left.
    reflexivity.
  - destruct (upcoming_raises book now e Hu) as [->|[->| ->]].
    + split; [reflexivity|]. right. reflexivity.
    + split; [reflexivity|]. left. reflexivity.
    + intros Hw. exact Hw.
Qed.

Lemma answer_of_ok (allowed : error -> Prop) (f : handler)
      (args : list string) (st : state) :
  handler_ok allowed f ->
  match answer_of (f args st) with
  | Printed _ st' => well_keyed (book_of st) -> well_keyed (book_of st')
  | Stopped _ st' => st' = st
  | Crashed e st' => st' = st /\ allowed e
  end.
Proof.
  intros Hf. specialize (Hf args st).
  destruct (f args st) as [[m|e] st']; exact Hf.
Qed.

(** What one turn of the loop can do. *)
Lemma step_cases (line : string) (now : datetime) (st : state) :
  match step line now st with
  | Printed _ st' => well_keyed (book_of st) -> well_keyed (book_of st')
  | Stopped _ st' => st' = st
  | Crashed e st' =>
      st' = st
      /\ ((e = Exn ValueError /\ string_forallb isspace line = true)
          \/ e = TypeError \/ e = Exn AttributeError \/ e = Exn OverflowError)
  end.
Proof.
  unfold step.
  destruct (parse_input line) as [[command args]|e] eqn:Hp.
  - destruct (_ || _); [reflexivity|].
    destruct (String.eqb command "hello"); [intros Hw; exact Hw|].
    destruct (String.eqb command "add").
    { pose proof (answer_of_ok _ _ args st add_contact_ok) as H.
      destruct (answer_of _); try exact H. destruct H as [_ []]. }
    destruct (String.eqb command "change").
    { pose proof (answer_of_ok _ _ args st change_contact_ok) as H.
      destruct (answer_of _); try exact H. destruct H as [_ []]. }
    destruct (String.eqb command "phone").
    { pose proof (answer_of_ok _ _ args st show_phone_ok) as H.
      destruct (answer_of _); try exact H. destruct H as [-> ->]. auto. }
    destruct (String.eqb command "all").
    { pose proof (answer_of_ok _ _ args st show_all_ok) as H.
      destruct (answer_of _); try exact H. destruct H as [_ []]. }
    destruct (String.eqb command "add-birthday").
    { pose proof (answer_of_ok _ _ args st add_birthday_ok) as H.
      destruct (answer_of _); try exact H. destruct H as [_ []]. }
    destruct (String.eqb command "show-birthday").
    { pose proof (answer_of_ok _ _ args st show_birthday_ok) as H.
      destruct (answer_of _); try exact H. destruct H as [-> ->]. auto. }
    destruct (String.eqb command "birthdays").
    { pose proof (answer_of_ok _ _ args st (birthdays_ok now)) as H.
      destruct (answer_of _); try exact H. destruct H as [-> [->| ->]]; auto. }
    intros Hw. exact Hw.
  - split; [reflexivity|]. left.
    unfold parse_input in Hp.
    destruct (split line) eqn:Hs; [|discriminate].
    inversion Hp. split; [reflexivity|]. apply split_nil_iff. exact Hs.
Qed.

(** X24. The whole program keeps the book a dictionary keyed by name:
    from a book in which every record is stored under its own name and no
    name is there twice, every sequence of command lines, at any clock,
    leads to such a book again. *)
Theorem session_well_keyed
        (inputs : list (string * datetime)) (st : state) :
  well_keyed (book_of st) ->
  well_keyed (book_of (snd (session inputs st))).
Proof.
  revert st. induction inputs as [|[line now] inputs IH]; intros st Hw;
    simpl; [exact Hw|].
  pose proof (step_cases line now st) as Hs.
  destruct (step line now st) as [[out|] st'|out st'|e st']; simpl.
  - apply IH, Hs, Hw.
  - apply IH, Hs, Hw.
  - rewrite Hs. exact Hw.
  - destruct Hs as [-> _]. exact Hw.
Qed.

Lemma session_well_keyed_witness :
  well_keyed
    (book_of
       (snd (session [("add Ann 1234567890", noon_2024_08_20);
                      ("change Ann 0987654321", noon_2024_08_20);
                      ("add-birthday Bob 24.08.1991", noon_2024_08_20)]
                     fresh_state))).
Proof.
  apply session_well_keyed. split; constructor.
Defined.

(** X25. What [parse_input] and the handlers can raise out of a turn,
    and what they leave behind. Once [input()] has returned a line, when
    the rest of the turn (the call of [parse_input] and the handler that
    the command selects) ends in an exception, the book is as it was, and
    the exception is the [ValueError] of a line without a word, the
    [TypeError] of [phone], or an [AttributeError] or [OverflowError] of
    [show-birthday] and [birthdays]; no [KeyError] or [IndexError] gets
    past [input_error]. Reading the line and printing the answer are not
    part of [step]: what [input()] raises at the end of the input is not
    among these. *)
Theorem crash_causes
        (line : string) (now : datetime) (st st' : state) (e : error) :
  step line now st = Crashed e st' ->
  st' = st
  /\ ((e = Exn ValueError /\ string_forallb isspace line = true)
      \/ e = TypeError \/ e = Exn AttributeError \/ e = Exn OverflowError).
Proof.
  intros Hs. pose proof (step_cases line now st) as Hc.
  rewrite Hs in Hc. exact Hc.
Qed.

Lemma crash_causes_witness :
  let st := snd (add_contact ["Ann"; "1234567890"] fresh_state) in
  st = st
  /\ ((TypeError = Exn ValueError
       /\ string_forallb isspace "phone Ann" = true)
      \/ TypeError = TypeError \/ TypeError = Exn AttributeError
      \/ TypeError = Exn OverflowError).
Proof.
  apply (crash_causes "phone Ann" noon_2024_08_20). reflexivity.
Defined.

(** X26. With nothing upcoming, [birthdays] has no answer: the handler
    returns [None], and the program prints the text of [None]. *)
Theorem birthdays_prints_None (now : datetime) (st : state) :
  upcoming (book_of st) now = Ok [] ->
  birthdays now [] st = (Returns None, st)
  /\ step "birthdays" now st = Printed (Some "FAKEWEB None") st.
Proof.
  intros Hu. destruct st as [book h]. unfold book_of in Hu. cbn [fst] in Hu.
  assert (Hb : birthdays now [] (book, h) = (Returns None, (book, h))).
  { unfold birthdays, input_error, birthdays_body. run_cmd.
    rewrite Hu. reflexivity. }
  split; [exact Hb|].
  change (step "birthdays" now (book, h))
    with (answer_of (birthdays now [] (book, h))).
  rewrite Hb. reflexivity.
Qed.

Lemma birthdays_prints_None_witness :
  birthdays noon_2024_08_20 [] fresh_state = (Returns None, fresh_state)
  /\ step "birthdays" noon_2024_08_20 fresh_state
     = Printed (Some "FAKEWEB None") fresh_state.
Proof. apply birthdays_prints_None. reflexivity. Defined.

(* ===================================================================== *)
(** ** The words of a command line *)

Lemma string_forallb_app (p : ascii -> bool) (a b : string) :
  string_forallb p (a ++ b)%string
  = string_forallb p a && string_forallb p b.
Proof.
  induction a as [|c a IH]; simpl; [reflexivity|].
  rewrite IH, andb_assoc. reflexivity.
Qed.

Lemma append_nonempty (a : string) (c : ascii) :
  (a ++ String c EmptyString)%string <> EmptyString.
Proof. destruct a; discriminate. Qed.

Lemma split_from_words (s : string) :
  (forall w, word w -> Forall word (split_from (Some w) s))
  /\ Forall word (split_from None s).
Proof.
  induction s as [|c s [IHw IHn]]; simpl.
  - split; [intros w Hw; constructor; [exact Hw|constructor]|constructor].
  - destruct (isspace c) eqn:Hc.
    + split; [intros w Hw; constructor; [exact Hw|exact IHn]|exact IHn].
    + split.
      * intros w [Hne Hns]. apply IHw. split; [apply append_nonempty|].
        rewrite string_forallb_app, Hns. simpl. rewrite Hc. reflexivity.
      * apply IHw. split; [discriminate|]. simpl. rewrite Hc. reflexivity.
Qed.

Lemma rstrip_space_word (w : string) :
  string_forallb (fun c => negb (isspace c)) w = true -> rstrip_space w = w.
Proof.
  induction w as [|c w IH]; simpl; [reflexivity|].
  intros H. apply andb_true_iff in H. destruct H as [Hc Hw].
  rewrite (IH Hw). destruct w; [|reflexivity].
  destruct (isspace c); [discriminate Hc|reflexivity].
Qed.

Lemma strip_word (w : string) : word w -> strip w = w.
Proof.
  intros [Hne Hns]. unfold strip.
  destruct w as [|c w]; [contradiction|].
  assert (Hc : isspace c = false).
  { simpl in Hns. apply andb_true_iff in Hns. destruct Hns as [Hc _].
    destruct (isspace c); [discriminate Hc|reflexivity]. }
  cbn [lstrip_space]. rewrite Hc. apply rstrip_space_word. exact Hns.
Qed.

Lemma char_lower_idempotent (c : ascii) :
  char_lower (char_lower c) = char_lower c.
Proof.
  destruct c as [[] [] [] [] [] [] [] []]; vm_compute; reflexivity.
Qed.

Lemma char_lower_not_space (c : ascii) :
  isspace c = false -> isspace (char_lower c) = false.
Proof.
  destruct c as [[] [] [] [] [] [] [] []]; vm_compute; congruence.
Qed.

Lemma lower_idempotent (s : string) : lower (lower s) = lower s.
Proof.
  induction s as [|c s IH]; simpl; [reflexivity|].
  rewrite char_lower_idempotent, IH. reflexivity.
Qed.

Lemma lower_word (w : string) : word w -> word (lower w).
Proof.
  intros [Hne Hns]. split.
  - destruct w; [contradiction|discriminate].
  - clear Hne. induction w as [|c w IH]; simpl in *; [reflexivity|].
    apply andb_true_iff in Hns. destruct Hns as [Hc Hw].
    rewrite (IH Hw), andb_true_r.
    rewrite char_lower_not_space; [reflexivity|].
    destruct (isspace c); [discriminate Hc|reflexivity].
Qed.

(** X27. What a handler can be handed. When [parse_input] returns, the
    command is a word in small letters (lowering it again changes
    nothing) and every argument is a word: not empty, and without a space.
    So no command line makes [Name] refuse an empty name. *)
Theorem parse_input_words (line command : string) (args : list string) :
  parse_input line = Ok (command, args) ->
  word command
  /\ lower command = command
  /\ Forall word args
  /\ Forall (fun a => is_ok (Name.__init__ a) = true) args.
Proof.
  unfold parse_input. intros Hp.
  pose proof (proj2 (split_from_words line)) as Hw. fold (split line) in Hw.
  destruct (split line) as [|cmd rest]; [discriminate|].
  inversion Hp; subst. inversion Hw as [|? ? Hcmd Hrest]; subst.
  rewrite (strip_word cmd Hcmd).
  split; [apply lower_word; exact Hcmd|].
  split; [apply lower_idempotent|].
  split; [exact Hrest|].
  eapply Forall_impl; [|exact Hrest].
  intros a [Hne _]. unfold Name.__init__.
  destruct (String.eqb_spec a EmptyString); [contradiction|reflexivity].
Qed.

Lemma parse_input_words_witness :
  word "add"
  /\ lower "add" = "add"
  /\ Forall word ["Ann"; "1234567890"]
  /\ Forall (fun a => is_ok (Name.__init__ a) = true) ["Ann"; "1234567890"].
Proof.
  apply (parse_input_words "  ADD Ann   1234567890 "). reflexivity.
Defined.
